(** * dskrnd: random desk assignment

    A shallow embedding of [dskrnd.py] and the properties of its record
    store, its persistence functions and its two mutating menu actions.

    The program keeps one global list, [database], of records
    [{"user_name": str, "desk_number": int}].  The functions that only read
    or update that list are embedded as functions of the list; the functions
    that also talk to the terminal are embedded in a state monad over a
    [world] that holds the list, the terminal and the random source. *)

From Stdlib Require Import ZArith NArith Ascii String Lia.
From stdpp Require Import base decidable option list list_numbers sorting gmap pretty.

Local Open Scope Z_scope.

(** ** Python values used by the program *)

(** A Python [str] is a sequence of Unicode code points; [len] counts code
    points and [==] compares them one by one. *)
Definition pystr := list N.

(** The code points of an ASCII literal of the source. *)
Fixpoint str (s : string) : pystr :=
  match s with
  | EmptyString => []
  | String a s' => N_of_ascii a :: str s'
  end.

(** [str(n)] and [f"{n}"] for an [int]: decimal digits, [-] when negative. *)
Definition str_of_int (n : Z) : pystr := str (pretty n).

(** The exceptions that the modelled code can raise. *)
Inductive exn :=
  | ValueError
  | IndexError
  | UnicodeDecodeError.

(** Result of a computation that may raise, or exceed the iteration bound
    given to the model of a loop. *)
Inductive res (A : Type) :=
  | Done (a : A)
  | Throw (e : exn)
  | Timeout.
Arguments Done {A} a.
Arguments Throw {A} e.
Arguments Timeout {A}.

(** ** The record store *)

Definition DESK_POOL : Z := 50.

Record record := Record_ { user_name : pystr; desk_number : Z }.

#[global] Instance record_eq_dec : EqDecision record.
Proof. solve_decision. Defined.

Module Store.

(** [get_assigned_desk_numbers]: the loop appends one number per record. *)
Definition get_assigned_desk_numbers (database : list record) : list Z :=
  foldl (fun desk_numbers r => desk_numbers ++ [desk_number r]) [] database.

(** [get_assigned_user_names]. *)
Definition get_assigned_user_names (database : list record) : list pystr :=
  foldl (fun user_names r => user_names ++ [user_name r]) [] database.

(** [get_user_name]: the loop returns at the first record that matches. *)
Fixpoint get_user_name (desk : Z) (database : list record) : pystr :=
  match database with
  | [] => str ""
  | r :: rest =>
      if decide (desk_number r = desk) then user_name r
      else get_user_name desk rest
  end.

(** [get_desk_number]. *)
Fixpoint get_desk_number (name : pystr) (database : list record) : Z :=
  match database with
  | [] => 0
  | r :: rest =>
      if decide (user_name r = name) then desk_number r
      else get_desk_number name rest
  end.

(** [add_desk_assignment]: [database.append(new_record)]. *)
Definition add_desk_assignment (desk : Z) (name : pystr)
    (database : list record) : list record :=
  let new_record := {| user_name := name; desk_number := desk |} in
  database ++ [new_record].

(** [database.index(record)]: position of the first element equal to
    [record]; [None] stands for the [ValueError] of a missing element. *)
Definition list_index (r : record) (database : list record) : option nat :=
  fst <$> list_find (fun r' => r' = r) database.

(** [clear_desk_assignment]: the [for] loop walks [database] by position
    while the body deletes from the same list.  Python's list iterator
    holds an index [i]; each step reads [database[i]] of the list as it is
    now, stops when [i] is past the end, and moves to [i + 1].  [fuel]
    bounds the number of steps. *)
Fixpoint clear_loop (fuel : nat) (desk : Z) (i : nat)
    (database : list record) : res (list record) :=
  match fuel with
  | O => Timeout
  | S fuel' =>
      match database !! i with
      | None => Done database
      | Some r =>
          if decide (desk_number r = desk) then
            match list_index r database with
            | None => Throw ValueError
            | Some j => clear_loop fuel' desk (S i) (delete j database)
            end
          else clear_loop fuel' desk (S i) database
      end
  end.

Definition clear_desk_assignment (desk : Z) (database : list record)
    : res (list record) :=
  clear_loop (S (length database)) desk 0 database.

End Store.

Import Store.

(** ** Text classification and conversion *)

(** [str.isdigit] and [int] consult the interpreter's Unicode tables, which
    are not part of the program; they are parameters of the model.
    [is_digit c] says that code point [c] has Numeric_Type Digit or Decimal
    (what [isdigit] tests); [decimal_value c] is the value of [c] as a
    decimal digit, for the characters of category Nd (what [int] accepts). *)
Class Unicode := {
  is_digit : N -> bool;
  decimal_value : N -> option N
}.

(** The tables restricted to U+0000..U+00FF: the ASCII digits are decimal
    digits; the superscripts U+00B2, U+00B3 and U+00B9 are digits without a
    decimal value.  Code points above U+00FF count as non-digits here; the
    instance serves to run the model on Latin-1 input. *)
Definition latin1 : Unicode := {|
  is_digit c :=
    ((48 <=? c) && (c <=? 57) || (c =? 178) || (c =? 179) || (c =? 185))%N;
  decimal_value c :=
    if ((48 <=? c) && (c <=? 57))%N then Some (c - 48)%N else None
|}.

Section Text.

Context {U : Unicode}.

(** [s.isdigit()]: every character is a digit and there is at least one. *)
Definition isdigit (s : pystr) : bool :=
  bool_decide (s <> []) && forallb is_digit s.

Fixpoint int_digits (acc : Z) (s : pystr) : option Z :=
  match s with
  | [] => Some acc
  | c :: s' =>
      match decimal_value c with
      | Some v => int_digits (10 * acc + Z.of_N v) s'
      | None => None
      end
  end.

(** [int(s)] for a string without sign, blanks or underscores, which is
    all the program passes to it: the base-10 value when every character
    is a decimal digit, [ValueError] otherwise. *)
Definition int (s : pystr) : res Z :=
  match s with
  | [] => Throw ValueError
  | _ => match int_digits 0 s with
         | Some n => Done n
         | None => Throw ValueError
         end
  end.

End Text.

(** [f"{s:17}"]: a [str] is padded on the right. *)
Definition ljust (width : nat) (s : pystr) : pystr :=
  s ++ replicate (width - length s) 32%N.

(** [f"{n:2}"]: an [int] is padded on the left. *)
Definition rjust (width : nat) (s : pystr) : pystr :=
  replicate (width - length s) 32%N ++ s.

(** Order of [sorted] on strings: lexicographic on code points. *)
Fixpoint str_leb (a b : pystr) : bool :=
  match a, b with
  | [], _ => true
  | _ :: _, [] => false
  | x :: a', y :: b' =>
      if (x <? y)%N then true
      else if (y <? x)%N then false
      else str_leb a' b'
  end.

Definition sorted (l : list pystr) : list pystr :=
  merge_sort (fun a b => Is_true (str_leb a b)) l.

(** ** The persisted document *)

(** Values that [json.load] can return. *)
#[warnings="-register-all"]
Inductive pyval :=
  | PNone
  | PBool (b : bool)
  | PInt (n : Z)
  | PFloat (literal : pystr)
  | PStr (s : pystr)
  | PList (items : list pyval)
  | PDict (items : list (pystr * pyval)).

(** The list of records as a Python value: each record is the dict built
    by [add_desk_assignment], with its two keys in that order. *)
Definition record_value (r : record) : pyval :=
  PDict [(str "user_name", PStr (user_name r));
         (str "desk_number", PInt (desk_number r))].

Definition store_value (database : list record) : pyval :=
  PList (record_value <$> database).

(** The way back, for the values of that shape. *)
Definition as_record (v : pyval) : option record :=
  match v with
  | PDict [(k1, PStr name); (k2, PInt n)] =>
      if decide (k1 = str "user_name" /\ k2 = str "desk_number")
      then Some {| user_name := name; desk_number := n |}
      else None
  | _ => None
  end.

Definition as_records (v : pyval) : option (list record) :=
  match v with
  | PList items => mapM as_record items
  | _ => None
  end.

(** What [open(DATABASE_FILE_NAME)] followed by [json.load] does, which
    is all the program observes of the file.  A file is identified with the
    value that [json.load] reads from it; [json.dump] is taken to write a
    file that [json.load] reads back as the value dumped. *)
Inductive file_state :=
  | Missing                (* open raises FileNotFoundError *)
  | Unreadable             (* open or read raises another OSError *)
  | Garbled                (* json.load raises JSONDecodeError *)
  | Undecodable            (* the bytes are not text: UnicodeDecodeError *)
  | Document (v : pyval).  (* json.load returns v *)

(** How an attempt to write the file goes. *)
Inductive disk_state :=
  | Writable               (* open and json.dump succeed *)
  | OpenFails              (* open(..., "w") raises OSError *)
  | WriteFails.            (* the file is truncated, then a write raises *)

Module Persistence.

(** [read_database_file]: the result and the new value of the global.
    [IOError] and [JSONDecodeError] are caught; the assignment to
    [database] has not happened then.  Any other exception leaves the
    function. *)
Definition read_database_file (f : file_state) (database : pyval)
    : res (bool * pyval) :=
  match f with
  | Missing => Done (false, database)
  | Unreadable => Done (false, database)
  | Garbled => Done (false, database)
  | Undecodable => Throw UnicodeDecodeError
  | Document v => Done (true, v)
  end.

(** [write_database_file]: the result and the new state of the file. *)
Definition write_database_file (d : disk_state) (f : file_state)
    (database : pyval) : bool * file_state :=
  match d with
  | Writable => (true, Document database)
  | OpenFails => (false, f)
  | WriteFails => (false, Garbled)
  end.

End Persistence.




(** ** The terminal, the random source and the state of a run *)

(** Calls made on the curses screen. *)
Inductive screen_op :=
  | Clear
  | Border
  | AddStr (y x : Z) (s : pystr)
  | Echo
  | NoEcho
  | CursSet (visible : bool).

#[global] Instance screen_op_eq_dec : EqDecision screen_op.
Proof. solve_decision. Defined.

(** The state that the program's functions read and change. *)
Record world := World {
  database : list record;    (* the global list *)
  pending : list pystr;      (* what the coming getkey and getstr calls
                                return, after decoding, in order *)
  shown : list screen_op;    (* the screen calls made so far, oldest first *)
  entropy : list nat;        (* the coming draws of the random generator;
                                0 once the list is used up *)
  rows : Z;                  (* screen.getmaxyx()[0] *)
  cols : Z;                  (* screen.getmaxyx()[1] *)
  file : file_state;         (* dskrnd.json *)
  disk : disk_state
}.

Definition set_database (db : list record) (w : world) : world :=
  World db (pending w) (shown w) (entropy w) (rows w) (cols w) (file w) (disk w).
Definition set_pending (p : list pystr) (w : world) : world :=
  World (database w) p (shown w) (entropy w) (rows w) (cols w) (file w) (disk w).
Definition set_shown (ops : list screen_op) (w : world) : world :=
  World (database w) (pending w) ops (entropy w) (rows w) (cols w) (file w) (disk w).
Definition set_entropy (e : list nat) (w : world) : world :=
  World (database w) (pending w) (shown w) e (rows w) (cols w) (file w) (disk w).
Definition set_file (f : file_state) (w : world) : world :=
  World (database w) (pending w) (shown w) (entropy w) (rows w) (cols w) f (disk w).

(** How a function ends: it returns, it waits for input that the script
    [pending] does not contain, it raises, or the model of one of its loops
    has used up its iteration bound. *)
Inductive outcome (A : Type) :=
  | Ret (a : A) (w : world)
  | Blocked (w : world)
  | Raised (e : exn) (w : world)
  | OutOfSteps.
Arguments Ret {A} a w.
Arguments Blocked {A} w.
Arguments Raised {A} e w.
Arguments OutOfSteps {A}.

Definition M (A : Type) : Type := world -> outcome A.

Definition ret {A} (a : A) : M A := fun w => Ret a w.

Definition bind {A B} (m : M A) (k : A -> M B) : M B :=
  fun w =>
    match m w with
    | Ret a w' => k a w'
    | Blocked w' => Blocked w'
    | Raised e w' => Raised e w'
    | OutOfSteps => OutOfSteps
    end.

Declare Scope prog_scope.
Delimit Scope prog_scope with prog.
Bind Scope prog_scope with M.
Notation "'let*' x ':=' m 'in' k" := (bind m (fun x => k))
  (at level 10, x pattern, m at level 100, k at level 200) : prog_scope.
Notation "m ';;' k" := (bind m (fun _ => k))
  (at level 100, k at level 200, right associativity) : prog_scope.
Local Open Scope prog_scope.

(** The world in which a run stops, whichever way it stops. *)
Definition final {A} (o : outcome A) : option world :=
  match o with
  | Ret _ w | Blocked w | Raised _ w => Some w
  | OutOfSteps => None
  end.

(** [while True:] whose body ends in [break] or [continue]. *)
Inductive ctl := Break | Continue.

Fixpoint while_true (steps : nat) (body : M ctl) : M unit :=
  match steps with
  | O => fun _ => OutOfSteps
  | S steps' =>
      let* c := body in
      match c with
      | Break => ret tt
      | Continue => while_true steps' body
      end
  end.

(** The loops of the program read from the terminal in every iteration, so
    on a script of [n] answers no loop makes more than [n + 1] iterations
    (see [loop_unfold]). *)
Definition loop (body : M ctl) : M unit :=
  fun w => while_true (S (length (pending w))) body w.

(** [for x in items:] with the local variables of the loop in [s]. *)
Fixpoint for_each {A S} (items : list A) (body : A -> S -> M S) (s : S)
    : M S :=
  match items with
  | [] => ret s
  | a :: rest => let* s' := body a s in for_each rest body s'
  end.

Module Terminal.

Definition put (op : screen_op) : M unit :=
  fun w => Ret tt (set_shown (shown w ++ [op]) w).

Definition clear : M unit := put Clear.
Definition border : M unit := put Border.
Definition addstr (y x : Z) (s : pystr) : M unit := put (AddStr y x s).
Definition echo : M unit := put Echo.
Definition noecho : M unit := put NoEcho.
Definition curs_set (visible : bool) : M unit := put (CursSet visible).

Definition getmaxyx : M (Z * Z) := fun w => Ret (rows w, cols w) w.

(** [screen.getkey()]: blocks until a key arrives. *)
Definition getkey : M pystr :=
  fun w =>
    match pending w with
    | [] => Blocked w
    | k :: rest => Ret k (set_pending rest w)
    end.

(** [screen.getstr().decode("utf-8")]: blocks until a line arrives. *)
Definition getstr : M pystr :=
  fun w =>
    match pending w with
    | [] => Blocked w
    | line :: rest => Ret line (set_pending rest w)
    end.

End Terminal.

Import Terminal.

(** [random.choice(seq)]: [seq[k]] for a random [k < len(seq)];
    [IndexError] on an empty sequence. *)
Definition random_choice (seq : list Z) : M Z :=
  fun w =>
    let draw := hd O (entropy w) in
    match seq !! (draw mod length seq)%nat with
    | Some x => Ret x (set_entropy (tl (entropy w)) w)
    | None => Raised IndexError w
    end.

(** Reading and updating the global [database]. *)
Definition reads {A} (f : list record -> A) : M A :=
  fun w => Ret (f (database w)) w.

Definition update (f : list record -> list record) : M unit :=
  fun w => Ret tt (set_database (f (database w)) w).

Definition update_res (f : list record -> res (list record)) : M unit :=
  fun w =>
    match f (database w) with
    | Done db => Ret tt (set_database db w)
    | Throw e => Raised e w
    | Timeout => OutOfSteps
    end.

Definition lift {A} (r : res A) : M A :=
  fun w =>
    match r with
    | Done a => Ret a w
    | Throw e => Raised e w
    | Timeout => OutOfSteps
    end.

(** ** The action handlers *)

Module Msg.

Definition press_any_key : pystr := str "Press any key to continue...".
Definition no_free_desk : pystr := str "No free desk available.".
Definition enter_user_name : pystr :=
  str "Please enter user name (2 - 17 characters, empty to cancel): ".
Definition too_short : pystr := str "User name too short.".
Definition too_long : pystr := str "User name too long.".
Definition found (name : pystr) (desk : Z) : pystr :=
  str "User '" ++ name ++ str "' has been found in database assigned to desk number "
  ++ str_of_int desk ++ str ".".
Definition assigned (name : pystr) (desk : Z) : pystr :=
  str "User '" ++ name ++ str "' has been assigned to desk number "
  ++ str_of_int desk ++ str ".".
Definition no_desks : pystr := str "No desks assigned yet.".
Definition enter_desk_number : pystr :=
  str "Please enter desk number (1 - " ++ str_of_int DESK_POOL
  ++ str ", empty to cancel): ".
Definition bad_range : pystr :=
  str "Desk number must be a number in range 1 - " ++ str_of_int DESK_POOL
  ++ str " range.".
Definition not_assigned (desk : Z) : pystr :=
  str "Desk number " ++ str_of_int desk ++ str " is not assigned to any user.".
Definition cleared (desk : Z) : pystr :=
  str "Desk " ++ str_of_int desk ++ str " has been cleared.".
Definition resize : pystr :=
  str "Terminal window needs to be at least 80x24, please adjust the window size...".

End Msg.

(** [wait_for_key(message)]. *)
Definition wait_for_key (message : pystr) : M unit :=
  (if bool_decide (message <> []) then
     clear ;; border ;; addstr 2 2 message
   else ret tt) ;;
  let* size := getmaxyx in
  addstr (fst size - 2) 2 Msg.press_any_key ;;
  getkey ;;
  ret tt.

(** [get_user_input(message)]. *)
Definition get_user_input (message : pystr) : M pystr :=
  clear ;;
  border ;;
  addstr 2 2 message ;;
  echo ;;
  curs_set true ;;
  let* user_input := getstr in
  curs_set false ;;
  noecho ;;
  ret user_input.

(** Lines 168-172 of [assign_desk]: the desks of the pool that no record
    holds, as a list in the order in which the set enumerates them. *)
Definition free_desks (database : list record) : list Z :=
  let all_desks : gset Z := list_to_set (seqZ 1 DESK_POOL) in
  let assigned_desks : gset Z :=
    list_to_set (get_assigned_desk_numbers database) in
  elements (all_desks ∖ assigned_desks).

(** Lines 168-174 of [assign_desk]: the choice of a free desk. *)
Definition select_free_desk : M Z :=
  let* free := reads free_desks in
  random_choice free.

(** One iteration of the loop of [assign_desk]. *)
Definition assign_body : M ctl :=
  let* name := get_user_input Msg.enter_user_name in
  if bool_decide (length name = 0%nat) then ret Break
  else if bool_decide (length name < 2)%nat then
    wait_for_key Msg.too_short ;; ret Continue
  else if bool_decide (17 < length name)%nat then
    wait_for_key Msg.too_long ;; ret Continue
  else
    let* names := reads get_assigned_user_names in
    if bool_decide (name ∈ names) then
      let* desk := reads (get_desk_number name) in
      wait_for_key (Msg.found name desk) ;; ret Continue
    else
      let* desk := select_free_desk in
      update (add_desk_assignment desk name) ;;
      wait_for_key (Msg.assigned name desk) ;;
      ret Break.

(** [assign_desk]. *)
Definition assign_desk : M unit :=
  let* numbers := reads get_assigned_desk_numbers in
  if bool_decide (DESK_POOL <= Z.of_nat (length numbers)) then
    wait_for_key Msg.no_free_desk
  else loop assign_body.

Section Handlers.

Context {U : Unicode}.

(** One iteration of the loop of [clear_desk]. *)
Definition clear_body : M ctl :=
  let* input := get_user_input Msg.enter_desk_number in
  if bool_decide (length input = 0%nat) then ret Break
  else if negb (isdigit input) then
    wait_for_key Msg.bad_range ;; ret Continue
  else
    let* desk := lift (int input) in
    if negb (bool_decide (1 <= desk <= DESK_POOL)) then
      wait_for_key Msg.bad_range ;; ret Continue
    else
      let* numbers := reads get_assigned_desk_numbers in
      if bool_decide (desk ∉ numbers) then
        wait_for_key (Msg.not_assigned desk) ;; ret Continue
      else
        update_res (clear_desk_assignment desk) ;;
        wait_for_key (Msg.cleared desk) ;;
        ret Break.

(** [clear_desk]. *)
Definition clear_desk : M unit :=
  let* numbers := reads get_assigned_desk_numbers in
  if bool_decide (length numbers = 0%nat) then
    wait_for_key Msg.no_desks
  else loop clear_body.

(** [show_desks]: the loop variables are [(y, x)]. *)
Definition show_desks : M unit :=
  clear ;;
  border ;;
  for_each (seqZ 1 DESK_POOL)
    (fun desk '(y, x) =>
       let* size := getmaxyx in
       let '(y, x) := if decide (y = fst size - 4) then (2, x + 25) else (y, x) in
       let* name := reads (get_user_name desk) in
       addstr y x (rjust 2 (str_of_int desk) ++ str " - " ++ name) ;;
       ret (y + 1, x))
    (2, 2) ;;
  wait_for_key [].

(** [show_users]. *)
Definition show_users : M unit :=
  clear ;;
  border ;;
  let* names := reads get_assigned_user_names in
  for_each (sorted names)
    (fun name '(y, x) =>
       let* size := getmaxyx in
       let '(y, x) := if decide (y = fst size - 4) then (2, x + 25) else (y, x) in
       let* desk := reads (get_desk_number name) in
       addstr y x (ljust 17 name ++ str " - " ++ rjust 2 (str_of_int desk)) ;;
       ret (y + 1, x))
    (2, 2) ;;
  wait_for_key [].

(** One iteration of the loop of [main]. *)
Definition menu_body : M ctl :=
  let* size := getmaxyx in
  if bool_decide (fst size < 24) || bool_decide (snd size < 80) then
    clear ;;
    addstr 0 0 Msg.resize ;;
    getkey ;;
    ret Continue
  else
    clear ;;
    border ;;
    addstr 2 2 (str "Main menu") ;;
    addstr 4 2 (str "1. Assign desk") ;;
    addstr 5 2 (str "2. Clear desk") ;;
    addstr 6 2 (str "3. Show desks") ;;
    addstr 7 2 (str "4. Show users") ;;
    addstr 9 2 (str "0. Save data and exit program") ;;
    let* key := getkey in
    if decide (key = str "1") then assign_desk ;; ret Continue
    else if decide (key = str "2") then clear_desk ;; ret Continue
    else if decide (key = str "3") then show_desks ;; ret Continue
    else if decide (key = str "4") then show_users ;; ret Continue
    else if decide (key = str "0") then ret Break
    else ret Continue.

(** The part of [main] that follows [read_database_file()]. *)
Definition menu : M unit :=
  noecho ;;
  curs_set false ;;
  loop menu_body ;;
  fun w =>
    let '(_, f) := Persistence.write_database_file (disk w) (file w)
                     (store_value (database w)) in
    Ret tt (set_file f w).

(** A run of [main]: it ends as a function does, or it goes on with a
    global that is not a list of records, which the functions above do not
    describe. *)
Inductive run :=
  | Ends (o : outcome unit)
  | IllTyped (v : pyval) (w : world).

(** [main]: the result of [read_database_file()] is dropped. *)
Definition main (w : world) : run :=
  match Persistence.read_database_file (file w) (store_value (database w)) with
  | Done (_, v) =>
      match as_records v with
      | Some db => Ends (menu (set_database db w))
      | None => IllTyped v w
      end
  | Throw e => Ends (Raised e w)
  | Timeout => Ends OutOfSteps
  end.

End Handlers.

(** The world at the start of the program: [database = []], nothing on
    the screen. *)
Definition initial (keys : list pystr) (rnd : list nat) (r c : Z)
    (f : file_state) (d : disk_state) : world :=
  World [] keys [] rnd r c f d.

(** The data-model invariant of the specification: at most one record per
    desk number, at most one per user name, at most [DESK_POOL] records. *)
Definition invariant (database : list record) : Prop :=
  NoDup (get_assigned_desk_numbers database) /\
  NoDup (get_assigned_user_names database) /\
  Z.of_nat (length database) <= DESK_POOL.

(** "The earliest record in store order that satisfies [P]": the record at
    position [i], none before it satisfying [P]. *)
Definition earliest (P : record -> Prop) (database : list record)
    (i : nat) (r : record) : Prop :=
  database !! i = Some r /\ P r /\
  forall j r', (j < i)%nat -> database !! j = Some r' -> ~ P r'.

(** ** Notions used in the statements *)

(** The world after some more screen calls. *)
Definition show (ops : list screen_op) (w : world) : world :=
  set_shown (shown w ++ ops) w.

(** The screen calls of [get_user_input(message)], before and after the
    line is read. *)
Definition prompt_ops (message : pystr) : list screen_op :=
  [Clear; Border; AddStr 2 2 message; Echo; CursSet true].

Definition after_input_ops : list screen_op := [CursSet false; NoEcho].

(** The screen calls of [wait_for_key(message)] on a screen of [r] rows. *)
Definition message_ops (message : pystr) (r : Z) : list screen_op :=
  (if bool_decide (message <> []) then [Clear; Border; AddStr 2 2 message]
   else []) ++ [AddStr (r - 2) 2 Msg.press_any_key].

(** A run ends, in some way, in a world that satisfies [Q]. *)
Definition ends_with {A} (Q : world -> Prop) (o : outcome A) : Prop :=
  match final o with
  | Some w' => Q w'
  | None => False
  end.

(** Every iteration that asks for another one has read from the
    terminal. *)
Definition consumes (body : M ctl) : Prop :=
  forall w,
    match body w with
    | Ret Continue w' => (length (pending w') < length (pending w))%nat
    | OutOfSteps => False
    | _ => True
    end.

(** A computation that only draws on the screen. *)
Definition quiet {A} (m : M A) : Prop :=
  forall w, exists a ops, m w = Ret a (show ops w).

(** What a call of an action handler does to the store and to the script:
    [E] relates the store before and after, and no answer is put back. *)
Definition effect_of {A} (E : list record -> list record -> Prop)
    (w : world) (o : outcome A) : Prop :=
  ends_with (fun w' => E (database w) (database w') /\
                       (length (pending w') <= length (pending w))%nat) o.

(** The same for one iteration of a handler's loop: an iteration that
    asks for another one has left the store as it was and has read from
    the terminal. *)
Definition iteration_of (E : list record -> list record -> Prop)
    (w : world) (o : outcome ctl) : Prop :=
  effect_of E w o /\
  forall w', o = Ret Continue w' ->
    database w' = database w /\
    (length (pending w') < length (pending w))%nat.

(** The only change that the Assign flow makes: one record is appended,
    for a free desk of the pool and a name that no record has. *)
Definition assign_effect (db db' : list record) : Prop :=
  db' = db \/
  exists d name,
    d ∈ free_desks db /\ (name ∉ get_assigned_user_names db) /\
    db' = add_desk_assignment d name db.

(** The only change that the Clear flow makes: records are deleted. *)
Definition clear_effect (db db' : list record) : Prop :=
  db' `sublist_of` db.

(** The part of the Unicode tables that concerns the ASCII digits: each
    is a digit, with its decimal value. *)
Definition ascii_digits (U : Unicode) : Prop :=
  forall c, (48 <= c <= 57)%N ->
    is_digit c = true /\ decimal_value c = Some (c - 48)%N.





(** The screen calls that draw the menu. *)
Definition menu_ops : list screen_op :=
  [Clear; Border;
   AddStr 2 2 (str "Main menu");
   AddStr 4 2 (str "1. Assign desk");
   AddStr 5 2 (str "2. Clear desk");
   AddStr 6 2 (str "3. Show desks");
   AddStr 7 2 (str "4. Show users");
   AddStr 9 2 (str "0. Save data and exit program")].

(** The parts of the world that are outside the program's memory and
    screen: the size of the terminal, the file and the disk. *)
Definition env (w : world) : Z * Z * file_state * disk_state :=
  (rows w, cols w, file w, disk w).

(** A computation that leaves them alone, however it ends. *)
Definition keeps_env {A} (m : M A) : Prop :=
  forall w,
    match final (m w) with
    | Some w' => env w' = env w
    | None => True
    end.

(** ** Sample inputs *)

Definition bob5 : list record := [Record_ (str "Bob") 5].

(** Desks 1 to 49 taken, by users "u1" to "u49". *)
Definition all_but_50 : list record :=
  (fun n => Record_ (str "u" ++ str_of_int n) n) <$> seqZ 1 49.


Definition three_desks : list record :=
  [Record_ (str "Bob") 5; Record_ (str "Al") 7; Record_ (str "Cy") 6].

(** All 50 desks taken. *)
Definition full_store : list record :=
  (fun n => Record_ (str "u" ++ str_of_int n) n) <$> seqZ 1 50.

(** The file after the key "0" at the menu, from a store with Bob at
    desk 5 and a writable disk. *)
Definition file_of_exit_from (run : outcome unit) : file_state :=
  match final run with
  | Some w' => file w'
  | None => Missing
  end.

Definition sample_world (db : list record) (keys : list pystr)
    (rnd : list nat) : world :=
  World db keys [] rnd 24 80 Missing Writable.

(** * Facts *)

(** ** Properties of the store functions *)

Section StoreFacts.

Implicit Types (database db : list record) (r : record) (n : Z) (name : pystr).

Lemma desk_numbers_fmap db :
  get_assigned_desk_numbers db = desk_number <$> db.
Proof.
  unfold get_assigned_desk_numbers.
  enough (forall acc, foldl (fun ds r => ds ++ [desk_number r]) acc db
                      = acc ++ (desk_number <$> db)) as H by apply (H []).
  induction db as [|r db IH]; intros acc; simpl.
  - by rewrite app_nil_r.
  - rewrite IH, <- app_assoc. done.
Qed.

Lemma user_names_fmap db :
  get_assigned_user_names db = user_name <$> db.
Proof.
  unfold get_assigned_user_names.
  enough (forall acc, foldl (fun us r => us ++ [user_name r]) acc db
                      = acc ++ (user_name <$> db)) as H by apply (H []).
  induction db as [|r db IH]; intros acc; simpl.
  - by rewrite app_nil_r.
  - rewrite IH, <- app_assoc. done.
Qed.

Lemma get_user_name_absent n db :
  n ∉ get_assigned_desk_numbers db -> get_user_name n db = str "".
Proof.
  rewrite desk_numbers_fmap.
  induction db as [|r db IH]; simpl; [done|].
  rewrite not_elem_of_cons. intros [Hne Hnot].
  destruct (decide (desk_number r = n)); [congruence | auto].
Qed.

Lemma get_desk_number_absent name db :
  name ∉ get_assigned_user_names db -> get_desk_number name db = 0.
Proof.
  rewrite user_names_fmap.
  induction db as [|r db IH]; simpl; [done|].
  rewrite not_elem_of_cons. intros [Hne Hnot].
  destruct (decide (user_name r = name)); [congruence | auto].
Qed.

Lemma get_user_name_app n db1 db2 :
  n ∉ get_assigned_desk_numbers db1 ->
  get_user_name n (db1 ++ db2) = get_user_name n db2.
Proof.
  rewrite desk_numbers_fmap.
  induction db1 as [|r db1 IH]; simpl; [done|].
  rewrite not_elem_of_cons. intros [Hne Hnot].
  destruct (decide (desk_number r = n)); [congruence | auto].
Qed.

Lemma get_desk_number_app name db1 db2 :
  name ∉ get_assigned_user_names db1 ->
  get_desk_number name (db1 ++ db2) = get_desk_number name db2.
Proof.
  rewrite user_names_fmap.
  induction db1 as [|r db1 IH]; simpl; [done|].
  rewrite not_elem_of_cons. intros [Hne Hnot].
  destruct (decide (user_name r = name)); [congruence | auto].
Qed.

End StoreFacts.

(** ** Lookups (C10, C1) *)

Section Lookups.

Implicit Types (db : list record) (r : record) (n : Z) (name : pystr).

Lemma earliest_cons_hit (P : record -> Prop) r db :
  P r -> earliest P (r :: db) 0 r.
Proof. intros HP. repeat split; [done|]. intros j r' Hj. lia. Qed.

Lemma earliest_cons_miss (P : record -> Prop) r0 db i r :
  ~ P r0 -> earliest P db i r -> earliest P (r0 :: db) (S i) r.
Proof.
  intros HP (Hi & Hr & Hbefore). repeat split; [done..|].
  intros [|j] r' Hj Hlook; simpl in Hlook.
  - by inversion Hlook; subst.
  - apply (Hbefore j); [lia | done].
Qed.

(** C10. On every list of records, with or without duplicates,
    [get_user_name n] is the user name of the earliest record whose desk
    number is [n], and the empty string when no record has desk number
    [n]; [get_desk_number name] is the desk number of the earliest record
    whose user name is [name], and 0 when no record has that name. *)
Theorem lookups_return_earliest_match db n name :
  ((exists i r, earliest (fun r => desk_number r = n) db i r /\
                get_user_name n db = user_name r) \/
   ((forall r, r ∈ db -> desk_number r <> n) /\ get_user_name n db = str ""))
  /\
  ((exists i r, earliest (fun r => user_name r = name) db i r /\
                get_desk_number name db = desk_number r) \/
   ((forall r, r ∈ db -> user_name r <> name) /\ get_desk_number name db = 0)).
Proof.
  split.
  - induction db as [|r0 db IH]; simpl.
    + right. split; [|done]. intros r Hr. by apply elem_of_nil in Hr.
    + destruct (decide (desk_number r0 = n)) as [Heq|Hne].
      * left. exists 0%nat, r0. split; [|done].
        by apply (earliest_cons_hit (fun r => desk_number r = n)).
      * destruct IH as [(i & r & He & Hget)|[Hnone Hget]].
        -- left. exists (S i), r. split; [|done].
           by apply (earliest_cons_miss (fun r => desk_number r = n)).
        -- right. split; [|done]. intros r Hr.
           apply elem_of_cons in Hr as [->|Hr]; auto.
  - induction db as [|r0 db IH]; simpl.
    + right. split; [|done]. intros r Hr. by apply elem_of_nil in Hr.
    + destruct (decide (user_name r0 = name)) as [Heq|Hne].
      * left. exists 0%nat, r0. split; [|done].
        by apply (earliest_cons_hit (fun r => user_name r = name)).
      * destruct IH as [(i & r & He & Hget)|[Hnone Hget]].
        -- left. exists (S i), r. split; [|done].
           by apply (earliest_cons_miss (fun r => user_name r = name)).
        -- right. split; [|done]. intros r Hr.
           apply elem_of_cons in Hr as [->|Hr]; auto.
Qed.

(** C1, as amended. When no record of the store has desk number [n] and
    none has user name [name], then after [add_desk_assignment n name]
    [get_user_name n] is [name] and [get_desk_number name] is [n]. *)
Theorem add_then_find db n name :
  n ∉ get_assigned_desk_numbers db ->
  name ∉ get_assigned_user_names db ->
  get_user_name n (add_desk_assignment n name db) = name /\
  get_desk_number name (add_desk_assignment n name db) = n.
Proof.
  intros Hn Hname. unfold add_desk_assignment. split.
  - rewrite get_user_name_app by done. simpl. by rewrite decide_True.
  - rewrite get_desk_number_app by done. simpl. by rewrite decide_True.
Qed.

End Lookups.

Lemma add_then_find_witness :
  get_user_name 6 (add_desk_assignment 6 (str "Alice") bob5) = str "Alice" /\
  get_desk_number (str "Alice") (add_desk_assignment 6 (str "Alice") bob5) = 6.
Proof.
  apply add_then_find; apply (bool_decide_unpack _); vm_compute; exact I.
Defined.

(** C1 as stated fails: desk 5 is held by Bob, and after adding (5, Alice)
    [get_user_name 5] is still Bob. *)
Lemma add_then_find_needs_fresh :
  ~ (forall db n name, 1 <= n <= DESK_POOL ->
       get_user_name n (add_desk_assignment n name db) = name /\
       get_desk_number name (add_desk_assignment n name db) = n).
Proof.
  intros H.
  destruct (H bob5 5 (str "Alice")) as [Huser _]; [by vm_compute|].
  vm_compute in Huser. discriminate Huser.
Qed.

(** ** Deleting by desk number (C2) *)

Section Clearing.

Implicit Types (db pre suf : list record) (r : record) (n : Z).

(** [database.index(record)] finds a record that the iterator has just
    read, at that position or before it. *)
Lemma list_index_found db i r :
  db !! i = Some r ->
  exists j, list_index r db = Some j /\ (j <= i)%nat /\ db !! j = Some r.
Proof.
  intros Hi. unfold list_index.
  destruct (list_find (fun r' => r' = r) db) as [[j r']|] eqn:Hfind.
  - apply list_find_Some in Hfind as (Hj & -> & Hfirst).
    exists j. split; [done|]. split; [|done].
    destruct (decide (j <= i)%nat) as [|Hgt]; [done|].
    destruct (Hfirst i r Hi); [lia | done].
  - apply list_find_None in Hfind.
    rewrite Forall_forall in Hfind.
    destruct (Hfind r); [|done]. by eapply list_elem_of_lookup_2.
Qed.

(** The position is that of the record itself when no earlier record has
    its desk number. *)
Lemma list_index_middle pre r suf :
  desk_number r ∉ get_assigned_desk_numbers pre ->
  list_index r (pre ++ r :: suf) = Some (length pre).
Proof.
  intros Hpre. unfold list_index.
  assert (list_find (fun r' => r' = r) (pre ++ r :: suf)
          = Some (length pre, r)) as ->; [|done].
  apply list_find_Some. split; [apply list_lookup_middle; done|].
  split; [done|]. intros j r' Hj Hlt ->.
  rewrite lookup_app_l in Hj by done.
  apply Hpre. rewrite desk_numbers_fmap.
  apply list_elem_of_fmap. exists r. split; [done|].
  by eapply list_elem_of_lookup_2.
Qed.

(** From a position after which no record has desk number [n], the loop
    runs to the end of the list and changes nothing. *)
Lemma clear_loop_rest fuel n i db :
  (forall j r, (i <= j)%nat -> db !! j = Some r -> desk_number r <> n) ->
  (length db - i < fuel)%nat ->
  clear_loop fuel n i db = Done db.
Proof.
  revert i. induction fuel as [|fuel IH]; intros i Hrest Hfuel; [lia|].
  simpl. destruct (db !! i) as [r|] eqn:Hi; [|done].
  rewrite decide_False by (by apply (Hrest i)).
  apply IH.
  - intros j r' Hj. apply Hrest. lia.
  - apply lookup_lt_Some in Hi. lia.
Qed.

(** The loop always comes to an end, never raises, and only deletes. *)
Lemma clear_loop_sublist fuel n i db :
  (length db - i < fuel)%nat ->
  exists db', clear_loop fuel n i db = Done db' /\ db' `sublist_of` db.
Proof.
  revert i db. induction fuel as [|fuel IH]; intros i db Hfuel; [lia|].
  simpl. destruct (db !! i) as [r|] eqn:Hi; [|by exists db].
  pose proof (lookup_lt_Some _ _ _ Hi) as Hlen.
  destruct (decide (desk_number r = n)) as [Heq|Hne].
  - destruct (list_index_found db i r Hi) as (j & -> & Hj & Hjr).
    destruct (IH (S i) (delete j db)) as (db' & Hrun & Hsub).
    { rewrite length_delete by eauto. lia. }
    exists db'. split; [done|].
    etrans; [done | apply sublist_delete].
  - destruct (IH (S i) db) as (db' & Hrun & Hsub); [lia|]. by exists db'.
Qed.

Lemma clear_desk_assignment_sublist n db :
  exists db', clear_desk_assignment n db = Done db' /\ db' `sublist_of` db.
Proof. apply clear_loop_sublist. lia. Qed.

(** With one record for desk [n] the loop deletes that record and keeps
    the others in their order. *)
Lemma clear_loop_unique fuel n i pre r suf :
  desk_number r = n ->
  n ∉ get_assigned_desk_numbers pre ->
  n ∉ get_assigned_desk_numbers suf ->
  (i <= length pre)%nat ->
  (length (pre ++ r :: suf) - i < fuel)%nat ->
  clear_loop fuel n i (pre ++ r :: suf) = Done (pre ++ suf).
Proof.
  intros Hr Hpre Hsuf. revert i.
  induction fuel as [|fuel IH]; intros i Hi Hfuel; [lia|].
  rewrite length_app in Hfuel. simpl in Hfuel.
  destruct (decide (i = length pre)) as [->|Hlt].
  - simpl. rewrite list_lookup_middle by done.
    rewrite decide_True by done.
    rewrite list_index_middle by (by rewrite Hr).
    rewrite delete_middle.
    apply clear_loop_rest; [|rewrite length_app; lia].
    intros j r' Hj Hlook Hdesk.
    rewrite lookup_app_r in Hlook by lia.
    apply Hsuf. rewrite desk_numbers_fmap.
    apply list_elem_of_fmap. exists r'. split; [done|].
    by eapply list_elem_of_lookup_2.
  - simpl. assert (i < length pre)%nat as Hi' by lia.
    destruct (lookup_lt_is_Some_2 pre i Hi') as [r' Hlook].
    rewrite lookup_app_l, Hlook by done.
    rewrite decide_False.
    + apply IH; [lia | rewrite length_app; simpl; lia].
    + intros Hdesk. apply Hpre. rewrite desk_numbers_fmap.
      apply list_elem_of_fmap. exists r'. split; [done|].
      by eapply list_elem_of_lookup_2.
Qed.

Lemma clear_desk_assignment_unique n pre r suf :
  desk_number r = n ->
  n ∉ get_assigned_desk_numbers pre ->
  n ∉ get_assigned_desk_numbers suf ->
  clear_desk_assignment n (pre ++ r :: suf) = Done (pre ++ suf).
Proof.
  intros. apply clear_loop_unique; [done..|lia|lia].
Qed.

(** No-op when no record has the desk number. *)
Lemma clear_desk_assignment_absent n db :
  n ∉ get_assigned_desk_numbers db ->
  clear_desk_assignment n db = Done db.
Proof.
  intros Hn. apply clear_loop_rest; [|lia].
  intros j r _ Hlook Hdesk. apply Hn. rewrite desk_numbers_fmap.
  apply list_elem_of_fmap. exists r. split; [done|].
  by eapply list_elem_of_lookup_2.
Qed.

(** C2, as amended. On a store that has no record for desk [n],
    [add_desk_assignment n name] followed by [clear_desk_assignment n]
    gives back the store: the same records in the same order. *)
Theorem add_then_clear db n name :
  n ∉ get_assigned_desk_numbers db ->
  clear_desk_assignment n (add_desk_assignment n name db) = Done db.
Proof.
  intros Hn. unfold add_desk_assignment.
  rewrite <- (app_nil_r db) at 2.
  apply clear_desk_assignment_unique; [done | done |].
  vm_compute. by intros ?%elem_of_nil.
Qed.

End Clearing.

Lemma add_then_clear_witness :
  clear_desk_assignment 6 (add_desk_assignment 6 (str "Alice") bob5)
  = Done bob5.
Proof.
  apply add_then_clear. apply (bool_decide_unpack _). vm_compute. exact I.
Defined.

(** C2 as stated fails: with desk 5 held by Bob, adding (5, Alice) and
    clearing desk 5 deletes Bob's record and leaves Alice's. *)
Lemma add_then_clear_needs_fresh :
  ~ (forall db n name,
       clear_desk_assignment n (add_desk_assignment n name db) = Done db).
Proof.
  intros H. specialize (H bob5 5 (str "Alice")).
  vm_compute in H. discriminate H.
Qed.

(** With two records for one desk next to each other, the deletion of the
    first moves the second under the iterator, which skips it. *)
Example clear_skips_adjacent_duplicate :
  clear_desk_assignment 5
    [Record_ (str "A") 5; Record_ (str "B") 5; Record_ (str "C") 6]
  = Done [Record_ (str "B") 5; Record_ (str "C") 6].
Proof. reflexivity. Qed.

Example clear_after_duplicate_add :
  clear_desk_assignment 5 (add_desk_assignment 5 (str "Alice") bob5)
  = Done [Record_ (str "Alice") 5].
Proof. reflexivity. Qed.

(** ** Choosing a free desk (C3) *)

Section Selection.

Implicit Types (db : list record) (w : world) (d x : Z).

Lemma elem_of_free_desks x db :
  x ∈ free_desks db <->
  1 <= x <= DESK_POOL /\ x ∉ get_assigned_desk_numbers db.
Proof.
  unfold free_desks, DESK_POOL.
  rewrite elem_of_elements, elem_of_difference, !elem_of_list_to_set.
  rewrite elem_of_seqZ. intuition lia.
Qed.

(** Fewer than 50 records leave a desk of the pool free. *)
Lemma free_desks_nonempty db :
  Z.of_nat (length db) < DESK_POOL -> free_desks db <> [].
Proof.
  intros Hlen Hnil.
  assert (seqZ 1 DESK_POOL ⊆+ get_assigned_desk_numbers db) as Hsub.
  { apply NoDup_submseteq; [apply NoDup_seqZ|].
    intros x Hx. apply elem_of_seqZ in Hx.
    destruct (decide (x ∈ get_assigned_desk_numbers db)) as [|Hfree]; [done|].
    assert (x ∈ free_desks db) as Hin
      by (apply elem_of_free_desks; unfold DESK_POOL in *; split; [lia|done]).
    rewrite Hnil in Hin. by apply elem_of_nil in Hin. }
  apply submseteq_length in Hsub.
  rewrite length_seqZ, desk_numbers_fmap, length_fmap in Hsub.
  unfold DESK_POOL in *. lia.
Qed.

Lemma random_choice_Ret seq w x w' :
  random_choice seq w = Ret x w' ->
  x ∈ seq /\ w' = set_entropy (tl (entropy w)) w.
Proof.
  unfold random_choice.
  destruct (seq !! _) as [y|] eqn:Hlook; [|done].
  intros [= -> <-]. split; [|done]. by eapply list_elem_of_lookup_2.
Qed.

Lemma random_choice_nonempty seq w :
  seq <> [] ->
  exists x, x ∈ seq /\
            random_choice seq w = Ret x (set_entropy (tl (entropy w)) w).
Proof.
  intros Hne. unfold random_choice.
  assert (hd 0%nat (entropy w) mod length seq < length seq)%nat as Hlt.
  { apply Nat.mod_upper_bound. by destruct seq. }
  destruct (lookup_lt_is_Some_2 _ _ Hlt) as [x Hx].
  exists x. rewrite Hx. split; [|done]. by eapply list_elem_of_lookup_2.
Qed.

(** In [assign_desk] the choice is made with fewer than 50 records, so
    it returns a desk: [random.choice] is not given an empty list. *)
Lemma select_free_desk_returns w :
  Z.of_nat (length (database w)) < DESK_POOL ->
  exists d, d ∈ free_desks (database w) /\
            select_free_desk w = Ret d (set_entropy (tl (entropy w)) w).
Proof.
  intros Hlen. apply random_choice_nonempty. by apply free_desks_nonempty.
Qed.

(** C3. The desk that the selection returns lies in the pool and is not
    among the assigned desk numbers; and when exactly one desk of the pool
    is free, the selection returns that desk, whatever the random draw. *)
Theorem free_desk_selection w :
  (forall d w', select_free_desk w = Ret d w' ->
     1 <= d <= DESK_POOL /\ d ∉ get_assigned_desk_numbers (database w)) /\
  (forall d,
     (forall x, (1 <= x <= DESK_POOL /\
                 x ∉ get_assigned_desk_numbers (database w)) <-> x = d) ->
     select_free_desk w = Ret d (set_entropy (tl (entropy w)) w)).
Proof.
  split.
  - intros d w' Hsel. apply random_choice_Ret in Hsel as [Hin _].
    apply elem_of_free_desks in Hin. tauto.
  - intros d Honly.
    assert (free_desks (database w) = [d]) as Hfree.
    { unfold free_desks.
      set (s := _ ∖ _).
      assert (s = {[ d ]}) as ->; [|apply elements_singleton].
      apply set_eq. intros x. rewrite elem_of_singleton, <- Honly.
      subst s. unfold DESK_POOL.
      rewrite elem_of_difference, !elem_of_list_to_set, elem_of_seqZ.
      intuition lia. }
    unfold select_free_desk, bind, reads. rewrite Hfree.
    unfold random_choice. simpl. reflexivity.
Qed.

End Selection.

Lemma only_50_is_free x :
  (1 <= x <= DESK_POOL /\ x ∉ get_assigned_desk_numbers all_but_50) <-> x = 50.
Proof.
  split.
  - intros [Hx Hfree].
    assert (x ∈ free_desks all_but_50) as Hin
      by (by apply elem_of_free_desks).
    vm_compute in Hin. by apply list_elem_of_singleton in Hin.
  - intros ->. split; [by vm_compute|].
    apply (bool_decide_unpack _). vm_compute. exact I.
Qed.

Lemma free_desk_selection_witness :
  select_free_desk (sample_world all_but_50 [] [7%nat])
  = Ret 50 (sample_world all_but_50 [] []) /\
  50 ∉ get_assigned_desk_numbers all_but_50.
Proof.
  pose proof (free_desk_selection (sample_world all_but_50 [] [7%nat]))
    as [Hfresh Honly].
  pose proof (Honly 50 only_50_is_free) as Hsel.
  split; [exact Hsel|].
  exact (proj2 (Hfresh 50 _ Hsel)).
Defined.

(** ** Loops and terminal primitives *)

Section Loops.

Implicit Types (w : world) (body : M ctl).

Lemma while_true_enough body steps w :
  consumes body ->
  (length (pending w) < steps)%nat ->
  while_true steps body w <> OutOfSteps.
Proof.
  intros Hc. revert w. induction steps as [|steps IH]; intros w Hlen; [lia|].
  simpl. unfold bind. specialize (Hc w).
  destruct (body w) as [[|] w'| | |]; try done.
  apply IH. lia.
Qed.

Lemma while_true_more body steps steps' w :
  (steps <= steps')%nat ->
  while_true steps body w <> OutOfSteps ->
  while_true steps' body w = while_true steps body w.
Proof.
  revert steps' w. induction steps as [|steps IH]; intros steps' w Hle Hrun.
  - by destruct Hrun.
  - destruct steps' as [|steps']; [lia|].
    simpl in *. unfold bind in *.
    destruct (body w) as [[|] w'| | |]; try done.
    apply IH; [lia | done].
Qed.

(** The bound of [loop] is never reached, so [loop] satisfies the
    equation of [while True]. *)
Lemma loop_unfold body w :
  consumes body ->
  loop body w =
    (let* c := body in
     match c with Break => ret tt | Continue => loop body end) w.
Proof.
  intros Hc. unfold loop at 1. simpl. unfold bind.
  pose proof (Hc w) as Hw.
  destruct (body w) as [[|] w'| | |]; try done.
  unfold loop. apply while_true_more; [lia|].
  apply while_true_enough; [done | lia].
Qed.

Lemma loop_never_out_of_steps body w :
  consumes body -> loop body w <> OutOfSteps.
Proof. intros Hc. apply while_true_enough; [done | lia]. Qed.

(** Invariant rule: [I] holds whenever the loop asks for another
    iteration, [Q] when the run stops. *)
Lemma loop_ends (I Q : world -> Prop) body :
  (forall w, I w ->
     match body w with
     | Ret Continue w' =>
         I w' /\ (length (pending w') < length (pending w))%nat
     | Ret Break w' | Blocked w' | Raised _ w' => Q w'
     | OutOfSteps => False
     end) ->
  forall w, I w -> ends_with Q (loop body w).
Proof.
  intros Hbody.
  enough (forall steps w, I w -> (length (pending w) < steps)%nat ->
            ends_with Q (while_true steps body w)) as H.
  { intros w HI. apply H; [done | lia]. }
  induction steps as [|steps IH]; intros w HI Hlen; [lia|].
  simpl. unfold bind. specialize (Hbody w HI).
  destruct (body w) as [[|] w'| | |]; try done.
  destruct Hbody as [HI' Hlt]. apply IH; [done | lia].
Qed.

Lemma wait_for_key_run message w :
  wait_for_key message w =
    match pending w with
    | [] => Blocked (show (message_ops message (rows w)) w)
    | _ :: rest =>
        Ret tt (set_pending rest (show (message_ops message (rows w)) w))
    end.
Proof.
  destruct w as [db keys ops rnd r c f d].
  unfold wait_for_key, message_ops, show, bind, clear, border, addstr,
    getmaxyx, getkey, put, ret, set_shown, set_pending; simpl.
  destruct (bool_decide (message <> [])); simpl;
    destruct keys; simpl; rewrite <- ?app_assoc; reflexivity.
Qed.

Lemma get_user_input_run message w :
  get_user_input message w =
    match pending w with
    | [] => Blocked (show (prompt_ops message) w)
    | line :: rest =>
        Ret line (set_pending rest
                    (show (prompt_ops message ++ after_input_ops) w))
    end.
Proof.
  destruct w as [db keys ops rnd r c f d].
  unfold get_user_input, prompt_ops, after_input_ops, show, bind, clear,
    border, addstr, echo, noecho, curs_set, getstr, put, ret, set_shown,
    set_pending; simpl.
  destruct keys; simpl; rewrite <- ?app_assoc; reflexivity.
Qed.

End Loops.

(** ** The Assign flow (C4, C7) *)

Ltac run_io :=
  repeat first [rewrite get_user_input_run | rewrite wait_for_key_run];
  simpl.

Ltac same_world :=
  unfold show, set_pending, set_shown, set_database, set_entropy; simpl;
  rewrite <- ?app_assoc; simpl; reflexivity.

Section AssignFlow.

Implicit Types (w : world) (db : list record) (name : pystr).

Lemma length_desk_numbers db :
  length (get_assigned_desk_numbers db) = length db.
Proof. by rewrite desk_numbers_fmap, length_fmap. Qed.

Lemma message_ops_shown message r :
  message <> [] ->
  message_ops message r =
    [Clear; Border; AddStr 2 2 message; AddStr (r - 2) 2 Msg.press_any_key].
Proof. intros Hne. unfold message_ops. by rewrite bool_decide_true. Qed.

Lemma assign_body_iteration w :
  iteration_of assign_effect w (assign_body w).
Proof.
  destruct w as [db keys ops rnd r c f d].
  unfold iteration_of, effect_of, ends_with, assign_body, bind, ret.
  run_io.
  destruct keys as [|name rest]; simpl; [by split; [split; [left|] |]|].
  case_bool_decide.
  { simpl. split; [split; [by left | lia]|done]. }
  case_bool_decide.
  { run_io. destruct rest; simpl.
    - split; [split; [by left | lia]|done].
    - split; [split; [by left | lia]|].
      intros w' [= <-]. simpl. split; [done|lia]. }
  case_bool_decide.
  { run_io. destruct rest; simpl.
    - split; [split; [by left | lia]|done].
    - split; [split; [by left | lia]|].
      intros w' [= <-]. simpl. split; [done|lia]. }
  unfold reads; simpl.
  case_bool_decide.
  { run_io. destruct rest; simpl.
    - split; [split; [by left | lia]|done].
    - split; [split; [by left | lia]|].
      intros w' [= <-]. simpl. split; [done|lia]. }
  unfold select_free_desk, bind, reads, random_choice, update. simpl.
  destruct (free_desks db !! _) as [desk|] eqn:Hdesk; simpl.
  - apply list_elem_of_lookup_2 in Hdesk.
    run_io. destruct rest; simpl.
    + split; [|done]. split; [|lia]. right. by exists desk, name.
    + split; [|done]. split; [|lia]. right. by exists desk, name.
  - split; [split; [by left | lia]|done].
Qed.

Lemma iteration_consumes E (body : M ctl) :
  (forall w, iteration_of E w (body w)) -> consumes body.
Proof.
  intros Hit w. destruct (Hit w) as [Heff Hcont].
  unfold effect_of, ends_with in Heff.
  destruct (body w) as [[|] w'| | |]; try done.
  by destruct (Hcont w').
Qed.

(** A loop whose iterations keep the store until the last one has the
    effect of its last iteration. *)
Lemma loop_effect E (body : M ctl) w :
  (forall w, iteration_of E w (body w)) ->
  effect_of E w (loop body w).
Proof.
  intros Hit. unfold effect_of.
  apply (loop_ends
           (fun w1 => database w1 = database w /\
                      (length (pending w1) <= length (pending w))%nat)).
  - intros w1 [Hdb Hlen]. destruct (Hit w1) as [Heff Hcont].
    unfold effect_of, ends_with in Heff.
    destruct (body w1) as [[|] w'| | |]; simpl in *; try done.
    + rewrite <- Hdb. split; [tauto | lia].
    + destruct (Hcont w') as [Hdb' Hlt]; [done|].
      split; [split; [congruence | lia] | done].
    + rewrite <- Hdb. split; [tauto | lia].
    + rewrite <- Hdb. split; [tauto | lia].
  - done.
Qed.

Lemma assign_body_consumes : consumes assign_body.
Proof. exact (iteration_consumes _ _ assign_body_iteration). Qed.

Lemma assign_desk_full w :
  DESK_POOL <= Z.of_nat (length (database w)) ->
  assign_desk w = wait_for_key Msg.no_free_desk w.
Proof.
  intros Hfull. unfold assign_desk, bind, reads.
  by rewrite length_desk_numbers, bool_decide_true.
Qed.

Lemma assign_desk_not_full w :
  Z.of_nat (length (database w)) < DESK_POOL ->
  assign_desk w = loop assign_body w.
Proof.
  intros Hroom. unfold assign_desk, bind, reads.
  by rewrite length_desk_numbers, bool_decide_false by lia.
Qed.

(** C4. With 50 records in the store, [assign_desk] shows "No free desk
    available." and the key prompt, waits for one key and returns: it asks
    for no name, and the store is as before. *)
Theorem assign_rejected_when_full w :
  length (database w) = 50%nat ->
  let w' := show [Clear; Border;
                  AddStr 2 2 (str "No free desk available.");
                  AddStr (rows w - 2) 2 (str "Press any key to continue...")]
                 w in
  database w' = database w /\
  assign_desk w =
    match pending w with
    | [] => Blocked w'
    | _ :: rest => Ret tt (set_pending rest w')
    end.
Proof.
  intros Hfull w'. split; [done|].
  rewrite assign_desk_full by (unfold DESK_POOL; lia).
  by rewrite wait_for_key_run.
Qed.

Lemma named_record_in_store name db :
  name ∈ get_assigned_user_names db ->
  Record_ name (get_desk_number name db) ∈ db.
Proof.
  rewrite user_names_fmap.
  induction db as [|[name0 d0] db IH]; simpl.
  - by intros ?%elem_of_nil.
  - intros Hin. destruct (decide (name0 = name)) as [->|Hne].
    + apply list_elem_of_here.
    + apply list_elem_of_further, IH.
      apply elem_of_cons in Hin as [Heq|Hin]; [congruence | done].
Qed.

(** C7. In [assign_desk], with room in the store, a name of valid
    length that a record already has is rejected: the message shown names
    the desk [d] of a record with that name, the store is as before, and
    after the key the handler is back at its prompt. *)
Theorem assign_duplicate_name_rejected w name rest :
  Z.of_nat (length (database w)) < DESK_POOL ->
  (2 <= length name <= 17)%nat ->
  name ∈ get_assigned_user_names (database w) ->
  pending w = name :: rest ->
  let d := get_desk_number name (database w) in
  let w' := show (prompt_ops Msg.enter_user_name ++ after_input_ops ++
                  [Clear; Border; AddStr 2 2 (Msg.found name d);
                   AddStr (rows w - 2) 2 Msg.press_any_key]) w in
  Record_ name d ∈ database w /\
  database w' = database w /\
  assign_desk w =
    match rest with
    | [] => Blocked (set_pending [] w')
    | _ :: rest' => assign_desk (set_pending rest' w')
    end.
Proof.
  intros Hroom Hlen Hin Hpending d w'.
  split; [by apply named_record_in_store|]. split; [done|].
  rewrite assign_desk_not_full by done.
  rewrite loop_unfold by apply assign_body_consumes.
  unfold bind at 1. unfold assign_body, bind, ret, reads.
  run_io. rewrite Hpending. simpl.
  rewrite !bool_decide_false by lia.
  rewrite bool_decide_true by done.
  run_io. rewrite message_ops_shown by done.
  subst w'. destruct w as [db keys ops rnd r c f dk]. simpl in *. subst keys.
  destruct rest as [|key rest']; simpl.
  - f_equal. same_world.
  - rewrite assign_desk_not_full by done. f_equal. same_world.
Qed.

End AssignFlow.

Lemma assign_rejected_when_full_witness :
  assign_desk (sample_world full_store [str "k"] []) =
    Ret tt (set_pending []
              (show [Clear; Border;
                     AddStr 2 2 (str "No free desk available.");
                     AddStr 22 2 (str "Press any key to continue...")]
                    (sample_world full_store [str "k"] []))).
Proof.
  apply (assign_rejected_when_full (sample_world full_store [str "k"] [])).
  vm_compute. reflexivity.
Defined.

Lemma assign_duplicate_name_rejected_witness :
  assign_desk (sample_world bob5 [str "Bob"; str "k"; str ""] []) =
    assign_desk
      (set_pending [str ""]
         (show (prompt_ops Msg.enter_user_name ++ after_input_ops ++
                [Clear; Border; AddStr 2 2 (Msg.found (str "Bob") 5);
                 AddStr 22 2 Msg.press_any_key])
               (sample_world bob5 [str "Bob"; str "k"; str ""] []))).
Proof.
  apply (assign_duplicate_name_rejected
           (sample_world bob5 [str "Bob"; str "k"; str ""] [])
           (str "Bob") [str "k"; str ""]).
  - vm_compute. reflexivity.
  - simpl. lia.
  - apply (bool_decide_unpack _). vm_compute. exact I.
  - reflexivity.
Defined.

Example alice_twice :
  let w := sample_world [] [str "Alice"; str "k"; str "Alice"; str "k"; str ""]
             [7%nat] in
  exists d w1 w2,
    assign_desk w = Ret tt w1 /\
    database w1 = [Record_ (str "Alice") d] /\ 1 <= d <= 50 /\
    assign_desk w1 = Ret tt w2 /\
    database w2 = database w1 /\
    AddStr 2 2 (Msg.found (str "Alice") d) ∈ shown w2.
Proof.
  eexists _, _, _. split; [vm_compute; reflexivity|].
  split; [reflexivity|]. split; [by vm_compute|].
  split; [vm_compute; reflexivity|]. split; [reflexivity|].
  apply (bool_decide_unpack _). vm_compute. exact I.
Qed.

(** ** The Clear flow (C8) *)

Section ClearFlow.

Context {U : Unicode}.

Implicit Types (w : world) (db pre suf : list record) (s : pystr) (n : Z).

Local Arguments isdigit : simpl never.
Local Arguments int : simpl never.

Lemma int_returns_or_raises s : int s <> Timeout.
Proof.
  unfold int. destruct s; [done|]. by destruct (int_digits _ _).
Qed.

(** A digit without a decimal value passes [isdigit] and fails [int]. *)
Lemma int_digit_without_value c :
  is_digit c = true -> decimal_value c = None ->
  isdigit [c] = true /\ int [c] = Throw ValueError.
Proof.
  intros Hdigit Hvalue. unfold isdigit, int. simpl.
  by rewrite Hdigit, Hvalue.
Qed.

Lemma clear_body_iteration w :
  iteration_of clear_effect w (clear_body w).
Proof.
  destruct w as [db keys ops rnd r c f d].
  unfold iteration_of, effect_of, ends_with, clear_effect, clear_body,
    bind, ret.
  run_io.
  destruct keys as [|input rest]; simpl; [done|].
  case_bool_decide.
  { simpl. split; [split; [done | lia]|done]. }
  destruct (isdigit input); simpl.
  2:{ run_io. destruct rest; simpl.
      - split; [split; [done | lia]|done].
      - split; [split; [done | lia]|].
        intros w' [= <-]. simpl. split; [done|lia]. }
  unfold lift. pose proof (int_returns_or_raises input) as Hint.
  destruct (int input) as [n|e|]; simpl; [| |done].
  2:{ split; [split; [done | lia]|done]. }
  case_bool_decide; simpl.
  2:{ run_io. destruct rest; simpl.
      - split; [split; [done | lia]|done].
      - split; [split; [done | lia]|].
        intros w' [= <-]. simpl. split; [done|lia]. }
  unfold reads; simpl. case_bool_decide; simpl.
  { run_io. destruct rest; simpl.
    - split; [split; [done | lia]|done].
    - split; [split; [done | lia]|].
      intros w' [= <-]. simpl. split; [done|lia]. }
  unfold update_res; simpl.
  destruct (clear_desk_assignment_sublist n db) as (db' & -> & Hsub).
  run_io. destruct rest; simpl.
  - split; [split; [done | lia]|done].
  - split; [split; [done | lia]|done].
Qed.

Lemma clear_body_consumes : consumes clear_body.
Proof. exact (iteration_consumes _ _ clear_body_iteration). Qed.

Lemma clear_desk_empty w :
  database w = [] -> clear_desk w = wait_for_key Msg.no_desks w.
Proof.
  intros Hdb. unfold clear_desk, bind, reads.
  by rewrite length_desk_numbers, Hdb.
Qed.

Lemma clear_desk_nonempty w :
  database w <> [] -> clear_desk w = loop clear_body w.
Proof.
  intros Hdb. unfold clear_desk, bind, reads.
  rewrite length_desk_numbers, bool_decide_false; [done|].
  by destruct (database w).
Qed.

(** The four ways in which one answer at the prompt of [clear_desk] is
    handled when [int] accepts what [isdigit] accepts. *)

(** An empty answer: back to the menu, nothing shown, store as before. *)
Lemma clear_desk_cancel w rest :
  database w <> [] ->
  pending w = [] :: rest ->
  clear_desk w =
    Ret tt (set_pending rest
              (show (prompt_ops Msg.enter_desk_number ++ after_input_ops) w)).
Proof.
  intros Hdb Hpending. rewrite clear_desk_nonempty by done.
  rewrite loop_unfold by apply clear_body_consumes.
  unfold bind at 1. unfold clear_body, bind, ret.
  run_io. rewrite Hpending. reflexivity.
Qed.

(** An answer that is not made of digits, or that is a number outside
    1..50: the range error, then the prompt again. *)
Lemma clear_desk_bad_input w s rest :
  database w <> [] ->
  pending w = s :: rest ->
  s <> [] ->
  (isdigit s = false \/
   exists n, isdigit s = true /\ int s = Done n /\ ~ 1 <= n <= DESK_POOL) ->
  let w' := show (prompt_ops Msg.enter_desk_number ++ after_input_ops ++
                  [Clear; Border; AddStr 2 2 Msg.bad_range;
                   AddStr (rows w - 2) 2 Msg.press_any_key]) w in
  database w' = database w /\
  clear_desk w =
    match rest with
    | [] => Blocked (set_pending [] w')
    | _ :: rest' => clear_desk (set_pending rest' w')
    end.
Proof.
  intros Hdb Hpending Hs Hbad w'. split; [done|].
  rewrite clear_desk_nonempty by done.
  rewrite loop_unfold by apply clear_body_consumes.
  unfold bind at 1. unfold clear_body, bind, ret, lift.
  run_io. rewrite Hpending. simpl.
  rewrite bool_decide_false by (by destruct s).
  destruct Hbad as [Hd|(n & Hd & Hi & Hn)]; rewrite Hd; simpl;
    [|rewrite Hi; simpl; rewrite bool_decide_false by done; simpl];
    (run_io; rewrite message_ops_shown by done;
     subst w'; destruct w as [db keys ops rnd r c f dk];
     simpl in *; subst keys;
     destruct rest as [|key rest']; simpl;
     [f_equal; same_world
     |rewrite clear_desk_nonempty by done; f_equal; same_world]).
Qed.

Lemma isdigit_nonempty s : isdigit s = true -> s <> [].
Proof. by destruct s. Qed.

(** A number of the pool that no record has: the "not assigned" message,
    then the prompt again. *)
Lemma clear_desk_not_assigned w s n rest :
  database w <> [] ->
  pending w = s :: rest ->
  isdigit s = true -> int s = Done n -> 1 <= n <= DESK_POOL ->
  n ∉ get_assigned_desk_numbers (database w) ->
  let w' := show (prompt_ops Msg.enter_desk_number ++ after_input_ops ++
                  [Clear; Border; AddStr 2 2 (Msg.not_assigned n);
                   AddStr (rows w - 2) 2 Msg.press_any_key]) w in
  database w' = database w /\
  clear_desk w =
    match rest with
    | [] => Blocked (set_pending [] w')
    | _ :: rest' => clear_desk (set_pending rest' w')
    end.
Proof.
  intros Hdb Hpending Hd Hi Hn Hfree w'. split; [done|].
  rewrite clear_desk_nonempty by done.
  rewrite loop_unfold by apply clear_body_consumes.
  unfold bind at 1. unfold clear_body, bind, ret, lift, reads.
  run_io. rewrite Hpending. simpl.
  rewrite bool_decide_false by (by apply isdigit_nonempty in Hd; destruct s).
  rewrite Hd, Hi. simpl.
  rewrite (bool_decide_true (1 <= n <= DESK_POOL)) by done. simpl.
  rewrite bool_decide_true by done.
  run_io. rewrite message_ops_shown by done.
  subst w'. destruct w as [db keys ops rnd r c f dk]. simpl in *. subst keys.
  destruct rest as [|key rest']; simpl.
  - f_equal. same_world.
  - rewrite clear_desk_nonempty by done. f_equal. same_world.
Qed.

(** The number of the one record that has it: that record is deleted,
    the others stay in their order, and the confirmation is shown. *)
Lemma clear_desk_removes w s n pre r suf rest :
  database w = pre ++ r :: suf ->
  desk_number r = n ->
  n ∉ get_assigned_desk_numbers pre ->
  n ∉ get_assigned_desk_numbers suf ->
  pending w = s :: rest ->
  isdigit s = true -> int s = Done n -> 1 <= n <= DESK_POOL ->
  let w' := set_database (pre ++ suf)
              (show (prompt_ops Msg.enter_desk_number ++ after_input_ops ++
                     [Clear; Border; AddStr 2 2 (Msg.cleared n);
                      AddStr (rows w - 2) 2 Msg.press_any_key]) w) in
  clear_desk w =
    match rest with
    | [] => Blocked (set_pending [] w')
    | _ :: rest' => Ret tt (set_pending rest' w')
    end.
Proof.
  intros Hdb Hr Hpre Hsuf Hpending Hd Hi Hn w'.
  rewrite clear_desk_nonempty by (rewrite Hdb; by destruct pre).
  rewrite loop_unfold by apply clear_body_consumes.
  unfold bind at 1. unfold clear_body, bind, ret, lift, reads, update_res.
  run_io. rewrite Hpending. simpl.
  rewrite bool_decide_false by (by apply isdigit_nonempty in Hd; destruct s).
  rewrite Hd, Hi. simpl.
  rewrite (bool_decide_true (1 <= n <= DESK_POOL)) by done. simpl.
  rewrite bool_decide_false.
  2:{ intros Hfree. apply Hfree. rewrite Hdb, desk_numbers_fmap, fmap_app.
      apply elem_of_app. right. simpl. rewrite Hr. apply list_elem_of_here. }
  simpl. rewrite Hdb, clear_desk_assignment_unique by done.
  run_io. rewrite message_ops_shown by done.
  subst w'. destruct w as [db keys ops rnd rw c f dk]. simpl in *. subst keys.
  destruct rest as [|key rest']; simpl; f_equal; same_world.
Qed.

(** C8, where the code departs from it. An answer made of one character
    that is a digit without a decimal value passes the [isdigit] test, and
    then [int] raises [ValueError], which nothing catches: [clear_desk]
    ends with the exception, without range error and without new prompt. *)
Theorem clear_desk_digit_without_value w c rest :
  database w <> [] ->
  pending w = [c] :: rest ->
  is_digit c = true ->
  decimal_value c = None ->
  clear_desk w =
    Raised ValueError
      (set_pending rest
         (show (prompt_ops Msg.enter_desk_number ++ after_input_ops) w)).
Proof.
  intros Hdb Hpending Hdigit Hvalue.
  destruct (int_digit_without_value c Hdigit Hvalue) as [Hd Hi].
  rewrite clear_desk_nonempty by done.
  rewrite loop_unfold by apply clear_body_consumes.
  unfold bind at 1. unfold clear_body, bind, ret, lift.
  run_io. rewrite Hpending. simpl.
  rewrite Hd, Hi. reflexivity.
Qed.

End ClearFlow.

Lemma clear_desk_digit_without_value_witness :
  @clear_desk latin1 (sample_world bob5 [[178%N]; str "k"] []) =
    Raised ValueError
      (set_pending [str "k"]
         (show (prompt_ops Msg.enter_desk_number ++ after_input_ops)
               (sample_world bob5 [[178%N]; str "k"] []))).
Proof.
  apply (@clear_desk_digit_without_value latin1
           (sample_world bob5 [[178%N]; str "k"] []) 178%N [str "k"]).
  - discriminate.
  - reflexivity.
  - reflexivity.
  - reflexivity.
Defined.

(** C8 as stated fails on the scenario of the specification: with the
    one record (Bob, desk 5), the answer "5" empties the store; a second
    Clear then finds no record, shows "No desks assigned yet." and returns
    without asking for a number, so the desk just cleared cannot be entered
    and no "not assigned" message appears. *)
Lemma clear_five_twice :
  let w := sample_world bob5 [str "5"; str "k"; str "k"] [] in
  exists w1 w2,
    @clear_desk latin1 w = Ret tt w1 /\ database w1 = [] /\
    @clear_desk latin1 w1 = Ret tt w2 /\ database w2 = [] /\
    AddStr 2 2 Msg.no_desks ∈ shown w2 /\
    (AddStr 2 2 (Msg.not_assigned 5) ∉ shown w2).
Proof.
  eexists _, _. split; [vm_compute; reflexivity|].
  split; [reflexivity|]. split; [vm_compute; reflexivity|].
  split; [reflexivity|].
  split; apply (bool_decide_unpack _); vm_compute; exact I.
Qed.

Section ClearAnswers.

Context {U : Unicode}.

(** C8, as amended. With no record in the store, [clear_desk] shows "No
    desks assigned yet." and returns after a key, without asking for a
    number.  With a record in the store it asks for a desk number, and one
    answer [s] is handled as follows.  The empty answer returns to the
    menu.  An answer that fails [isdigit], or that [int] reads as a number
    outside 1..50, shows the range error and the prompt comes again.  A
    number of 1..50 that no record has shows the "not assigned" message and
    the prompt comes again.  A number of 1..50 that exactly one record has
    deletes that record, keeps the others in their order and shows the
    confirmation.  In all cases but the last the store is as before. *)
Theorem clear_flow_answers w :
  (database w = [] ->
   let w' := show [Clear; Border; AddStr 2 2 Msg.no_desks;
                   AddStr (rows w - 2) 2 Msg.press_any_key] w in
   clear_desk w =
     match pending w with
     | [] => Blocked w'
     | _ :: rest => Ret tt (set_pending rest w')
     end) /\
  (database w <> [] ->
   forall s rest,
   pending w = s :: rest ->
   let asked := show (prompt_ops Msg.enter_desk_number ++ after_input_ops) w in
   let told message :=
     show (prompt_ops Msg.enter_desk_number ++ after_input_ops ++
           [Clear; Border; AddStr 2 2 message;
            AddStr (rows w - 2) 2 Msg.press_any_key]) w in
   let again message :=
     match rest with
     | [] => Blocked (set_pending [] (told message))
     | _ :: rest' => clear_desk (set_pending rest' (told message))
     end in
   database asked = database w /\
   (forall message, database (told message) = database w) /\
   (s = [] -> clear_desk w = Ret tt (set_pending rest asked)) /\
   (s <> [] ->
    (isdigit s = false \/
     exists n, isdigit s = true /\ int s = Done n /\ ~ 1 <= n <= DESK_POOL) ->
    clear_desk w = again Msg.bad_range) /\
   (forall n,
      isdigit s = true -> int s = Done n -> 1 <= n <= DESK_POOL ->
      (n ∉ get_assigned_desk_numbers (database w) ->
       clear_desk w = again (Msg.not_assigned n)) /\
      (forall pre r suf,
         database w = pre ++ r :: suf ->
         desk_number r = n ->
         n ∉ get_assigned_desk_numbers pre ->
         n ∉ get_assigned_desk_numbers suf ->
         clear_desk w =
           match rest with
           | [] => Blocked (set_pending []
                              (set_database (pre ++ suf) (told (Msg.cleared n))))
           | _ :: rest' =>
               Ret tt (set_pending rest'
                         (set_database (pre ++ suf) (told (Msg.cleared n))))
           end))).
Proof.
  split.
  { intros Hempty w'. rewrite clear_desk_empty by done.
    rewrite wait_for_key_run, message_ops_shown by done. done. }
  intros Hdb s rest Hpending asked told again.
  split; [done|]. split; [done|]. split; [|split].
  - intros ->. by apply clear_desk_cancel.
  - intros Hs Hbad.
    by destruct (clear_desk_bad_input w s rest Hdb Hpending Hs Hbad).
  - intros n Hd Hi Hn. split.
    + intros Hfree.
      by destruct (clear_desk_not_assigned w s n rest Hdb Hpending Hd Hi Hn Hfree).
    + intros pre r suf Hsplit Hr Hpre Hsuf.
      by apply (clear_desk_removes w s n pre r suf rest).
Qed.

End ClearAnswers.

Lemma clear_flow_answers_witness :
  let w := sample_world bob5 [str "5"; str "k"] [] in
  @clear_desk latin1 w =
    Ret tt (set_pending []
              (set_database []
                 (show (prompt_ops Msg.enter_desk_number ++ after_input_ops ++
                        [Clear; Border; AddStr 2 2 (Msg.cleared 5);
                         AddStr 22 2 Msg.press_any_key]) w))).
Proof.
  intros w.
  assert (database w <> []) as Hdb by discriminate.
  assert (pending w = str "5" :: [str "k"]) as Hpending by reflexivity.
  destruct (proj2 (@clear_flow_answers latin1 w) Hdb (str "5") [str "k"]
              Hpending) as (_ & _ & _ & _ & Hvalid).
  assert (1 <= 5 <= DESK_POOL) as Hrange by (by vm_compute).
  destruct (Hvalid 5 eq_refl eq_refl Hrange) as [_ Hremoves].
  apply (Hremoves [] (Record_ (str "Bob") 5) []); [reflexivity..| |];
    vm_compute; by intros ?%elem_of_nil.
Defined.

(** ** The invariant (C9) *)

Section Invariant.

Context {U : Unicode}.

Implicit Types (w : world) (db : list record).

Lemma ends_with_mono {A} (P Q : world -> Prop) (o : outcome A) :
  (forall w, P w -> Q w) -> ends_with P o -> ends_with Q o.
Proof. unfold ends_with. destruct (final o); [auto | done]. Qed.

Lemma wait_for_key_effect message w :
  effect_of eq w (wait_for_key message w).
Proof.
  rewrite wait_for_key_run. unfold effect_of, ends_with.
  destruct (pending w) eqn:Hp; simpl; rewrite ?Hp; simpl; split; (done || lia).
Qed.

Lemma invariant_add db d name :
  invariant db ->
  Z.of_nat (length db) < DESK_POOL ->
  d ∈ free_desks db ->
  name ∉ get_assigned_user_names db ->
  invariant (add_desk_assignment d name db).
Proof.
  intros (Hdesks & Hnames & Hlen) Hroom Hd Hname.
  apply elem_of_free_desks in Hd as [_ Hd].
  unfold invariant, add_desk_assignment.
  rewrite desk_numbers_fmap, user_names_fmap in *.
  rewrite !fmap_app, length_app. simpl. split; [|split; [|lia]].
  - apply NoDup_app. split; [done|]. split; [|apply NoDup_singleton].
    intros x Hx ->%list_elem_of_singleton. done.
  - apply NoDup_app. split; [done|]. split; [|apply NoDup_singleton].
    intros x Hx ->%list_elem_of_singleton. done.
Qed.

Lemma invariant_sublist db db' :
  invariant db -> db' `sublist_of` db -> invariant db'.
Proof.
  intros (Hdesks & Hnames & Hlen) Hsub.
  unfold invariant. rewrite desk_numbers_fmap, user_names_fmap in *.
  split; [|split].
  - eapply sublist_NoDup; [done|]. by apply fmap_sublist.
  - eapply sublist_NoDup; [done|]. by apply fmap_sublist.
  - apply sublist_length in Hsub. lia.
Qed.

(** What a call of [assign_desk] does: nothing to the store, or, when
    there was room, one record more for a free desk and a new name. *)
Lemma assign_desk_effect w :
  effect_of (fun db db' =>
               db' = db \/
               (Z.of_nat (length db) < DESK_POOL /\ assign_effect db db'))
    w (assign_desk w).
Proof.
  destruct (decide (DESK_POOL <= Z.of_nat (length (database w)))) as [Hfull|Hroom].
  - rewrite assign_desk_full by done.
    eapply ends_with_mono; [|apply wait_for_key_effect].
    intros w' [Hdb Hlen]. split; [by left | done].
  - rewrite assign_desk_not_full by lia.
    eapply ends_with_mono; [|apply (loop_effect assign_effect), assign_body_iteration].
    intros w' [Heff Hlen]. split; [|done]. right. split; [lia | done].
Qed.

(** What a call of [clear_desk] does: it deletes records, or nothing. *)
Lemma clear_desk_effect w :
  effect_of clear_effect w (clear_desk w).
Proof.
  destruct (decide (database w = [])) as [Hempty|Hsome].
  - rewrite clear_desk_empty by done.
    eapply ends_with_mono; [|apply wait_for_key_effect].
    intros w' [Hdb Hlen]. split; [|done]. unfold clear_effect. by rewrite Hdb.
  - rewrite clear_desk_nonempty by done.
    apply (loop_effect clear_effect), clear_body_iteration.
Qed.

(** C9. From a store that satisfies the invariant, a call of
    [assign_desk] and a call of [clear_desk] each come to an end (by
    returning, by waiting for input that does not come, or by an
    exception), and the store then satisfies the invariant again. *)
Theorem flows_keep_invariant w :
  invariant (database w) ->
  ends_with (fun w' => invariant (database w')) (assign_desk w) /\
  ends_with (fun w' => invariant (database w')) (clear_desk w).
Proof.
  intros Hinv. split.
  - eapply ends_with_mono; [|apply assign_desk_effect].
    intros w' [[->|[Hroom [->|(d & name & Hd & Hname & ->)]]] _]; simpl;
      [done | done | by apply invariant_add].
  - eapply ends_with_mono; [|apply clear_desk_effect].
    intros w' [Hsub _]. by eapply invariant_sublist.
Qed.

End Invariant.

Lemma flows_keep_invariant_witness :
  let w := sample_world bob5 [str "Alice"; str "k"] [7%nat] in
  ends_with (fun w' => invariant (database w')) (assign_desk w) /\
  ends_with (fun w' => invariant (database w')) (@clear_desk latin1 w).
Proof.
  intros w. apply (@flows_keep_invariant latin1 w).
  unfold invariant.
  split; [|split]; [apply (bool_decide_unpack _); vm_compute; exact I ..
                   | by vm_compute].
Defined.

(** ** Loading and saving (C5, C6) *)

Section Files.

Import Persistence.

Implicit Types (db : list record) (v old : pyval) (f : file_state).

Lemma as_record_value r : as_record (record_value r) = Some r.
Proof. destruct r as [name n]. reflexivity. Qed.

Lemma as_records_value db : as_records (store_value db) = Some db.
Proof.
  unfold store_value, as_records.
  induction db as [|r db IH]; [done|].
  rewrite fmap_cons. change (mapM as_record (record_value r :: (record_value <$> db)))
    with (x ← as_record (record_value r);
          k ← mapM as_record (record_value <$> db); mret (x :: k)).
  by rewrite as_record_value, IH.
Qed.


(** Bytes that are not text end [read_database_file], and with it the
    program, by an exception that the [except] clause does not name. *)
Lemma read_undecodable_raises old :
  read_database_file Undecodable old = Throw UnicodeDecodeError.
Proof. done. Qed.




(** The order of the records is kept as well. *)
Lemma save_then_load_same_list db f old :
  read_database_file
    (snd (write_database_file Writable f (store_value db))) old
  = Done (true, store_value db).
Proof. done. Qed.

End Files.




(** ** The menu loop *)

Section Menu.

Context {U : Unicode}.

Local Arguments str : simpl never.

Implicit Types (w : world).

Lemma show_show ops ops' w : show ops (show ops' w) = show (ops' ++ ops) w.
Proof. unfold show, set_shown. simpl. by rewrite app_assoc. Qed.

Lemma quiet_ret {A} (a : A) : quiet (ret a).
Proof.
  intros w. exists a, []. unfold ret, show, set_shown.
  rewrite app_nil_r. by destruct w.
Qed.

Lemma quiet_bind {A B} (m : M A) (k : A -> M B) :
  quiet m -> (forall a, quiet (k a)) -> quiet (let* a := m in k a).
Proof.
  intros Hm Hk w. unfold bind.
  destruct (Hm w) as (a & ops & ->).
  destruct (Hk a (show ops w)) as (b & ops' & ->).
  exists b, (ops ++ ops'). by rewrite show_show.
Qed.

Lemma quiet_put op : quiet (put op).
Proof. intros w. by exists tt, [op]. Qed.

Lemma quiet_reads {A} (f : list record -> A) : quiet (reads f).
Proof. intros w. apply (quiet_ret (f (database w))). Qed.

Lemma quiet_getmaxyx : quiet getmaxyx.
Proof. intros w. apply (quiet_ret (rows w, cols w)). Qed.

Lemma quiet_for_each {A S} (items : list A) (body : A -> S -> M S) s :
  (forall a s, quiet (body a s)) -> quiet (for_each items body s).
Proof.
  intros Hbody. revert s.
  induction items as [|a items IH]; intros s; simpl.
  - apply quiet_ret.
  - apply quiet_bind; [apply Hbody | apply IH].
Qed.

Lemma quiet_then_key_effect {A} (m : M A) w :
  quiet m -> effect_of eq w ((m ;; wait_for_key []) w).
Proof.
  intros Hm. unfold bind. destruct (Hm w) as (a & ops & ->).
  pose proof (wait_for_key_effect [] (show ops w)) as Heff.
  unfold effect_of, ends_with in *.
  destruct (final _); [|done]. exact Heff.
Qed.

Lemma show_desks_effect w : effect_of eq w (show_desks w).
Proof.
  unfold show_desks.
  apply (quiet_then_key_effect
           (clear ;; border ;; for_each _ _ (2, 2))).
  apply quiet_bind; [apply quiet_put|]. intros _.
  apply quiet_bind; [apply quiet_put|]. intros _.
  apply quiet_for_each. intros desk [y x].
  apply quiet_bind; [apply quiet_getmaxyx|]. intros size.
  destruct (decide (y = size.1 - 4));
    (apply quiet_bind; [apply quiet_reads|]; intros name;
     apply quiet_bind; [apply quiet_put|]; intros _; apply quiet_ret).
Qed.

Lemma show_users_effect w : effect_of eq w (show_users w).
Proof.
  unfold show_users.
  apply (quiet_then_key_effect
           (clear ;; border ;;
            let* names := reads get_assigned_user_names in
            for_each (sorted names) _ (2, 2))).
  apply quiet_bind; [apply quiet_put|]. intros _.
  apply quiet_bind; [apply quiet_put|]. intros _.
  apply quiet_bind; [apply quiet_reads|]. intros names.
  apply quiet_for_each. intros name [y x].
  apply quiet_bind; [apply quiet_getmaxyx|]. intros size.
  destruct (decide (y = size.1 - 4));
    (apply quiet_bind; [apply quiet_reads|]; intros desk;
     apply quiet_bind; [apply quiet_put|]; intros _; apply quiet_ret).
Qed.

(** A handler called from the menu ends, and leaves no more answers in
    the script than it found. *)
Lemma handler_then_continue (E : list record -> list record -> Prop)
    (handler : M unit) w n :
  effect_of E w (handler w) ->
  (length (pending w) < n)%nat ->
  match
    match handler w with
    | Ret _ w' => Ret Continue w'
    | Blocked w' => Blocked w'
    | Raised e w' => Raised e w'
    | OutOfSteps => OutOfSteps
    end
  with
  | Ret Continue w' => (length (pending w') < n)%nat
  | OutOfSteps => False
  | _ => True
  end.
Proof.
  unfold effect_of, ends_with.
  destruct (handler w); simpl; try done. intros [_ Hle] Hlt. lia.
Qed.

Lemma menu_body_consumes : consumes menu_body.
Proof.
  intros w. destruct w as [db keys ops rnd r c f d].
  unfold menu_body, bind, getmaxyx, clear, border, addstr, put, getkey, ret.
  simpl. destruct (bool_decide (r < 24) || bool_decide (c < 80)); simpl.
  { destruct keys; simpl; [done | lia]. }
  destruct keys as [|key keys]; simpl; [done|].
  repeat case_decide; try (simpl; lia).
  - eapply (handler_then_continue _ assign_desk);
      [apply assign_desk_effect | simpl; lia].
  - eapply (handler_then_continue _ clear_desk);
      [apply clear_desk_effect | simpl; lia].
  - eapply (handler_then_continue _ show_desks);
      [apply show_desks_effect | simpl; lia].
  - eapply (handler_then_continue _ show_users);
      [apply show_users_effect | simpl; lia].
Qed.

(** The models of the loops of the program never stop for lack of steps:
    every run of [main] ends as the program does. *)
Theorem main_within_steps w : main w <> Ends OutOfSteps.
Proof.
  unfold main.
  destruct (Persistence.read_database_file _ _) as [[ok v]|e|] eqn:Hread.
  - destruct (as_records v) as [db|]; [|done].
    intros [= Hmenu]. revert Hmenu.
    unfold menu, bind, noecho, curs_set, put. simpl.
    pose proof (loop_never_out_of_steps menu_body
                  (set_shown ((shown (set_database db w) ++ [NoEcho])
                              ++ [CursSet false])
                     (set_shown (shown (set_database db w) ++ [NoEcho])
                        (set_database db w)))
                  menu_body_consumes) as Hloop.
    simpl in Hloop.
    destruct (loop menu_body _); try done.
    by destruct (Persistence.write_database_file _ _ _).
  - done.
  - by destruct (file w).
Qed.

End Menu.

(** A whole session: no file at the start; "1", the name Alice and a key
    assign a desk; "0" saves and ends.  The file then holds the one
    record. *)
Example session_assign_and_save :
  exists d w',
    @main latin1 (initial [str "1"; str "Alice"; str "k"; str "0"] [3%nat]
                    24 80 Missing Writable) = Ends (Ret tt w') /\
    database w' = [Record_ (str "Alice") d] /\
    file w' = Document (store_value [Record_ (str "Alice") d]).
Proof.
  eexists _, _. split; [vm_compute; reflexivity|]. split; reflexivity.
Qed.

(** * Further properties *)

(** ** The store functions *)

Section StoreMore.

Implicit Types (db pre suf : list record) (r : record) (n : Z) (name : pystr).

Lemma elem_of_desk_numbers n db :
  n ∈ get_assigned_desk_numbers db <-> exists r, r ∈ db /\ desk_number r = n.
Proof.
  rewrite desk_numbers_fmap, list_elem_of_fmap.
  split; intros (r & H1 & H2); exists r; by split.
Qed.

Lemma elem_of_user_names name db :
  name ∈ get_assigned_user_names db <-> exists r, r ∈ db /\ user_name r = name.
Proof.
  rewrite user_names_fmap, list_elem_of_fmap.
  split; intros (r & H1 & H2); exists r; by split.
Qed.

Lemma filter_keeps_all (P : record -> Prop) `{!forall r, Decision (P r)} db :
  (forall r, r ∈ db -> P r) -> filter P db = db.
Proof.
  induction db as [|r db IH]; intros Hall; [done|].
  rewrite filter_cons_True by (apply Hall; left).
  f_equal. apply IH. intros r' Hr'. apply Hall. by right.
Qed.

Lemma filter_delete_other (P : record -> Prop) `{!forall r, Decision (P r)}
    db j r :
  db !! j = Some r -> ~ P r -> filter P (delete j db) = filter P db.
Proof.
  intros Hj HP. rewrite <- (take_drop_middle db j r Hj) at 2.
  rewrite delete_take_drop, !filter_app, filter_cons_False by done. done.
Qed.

(** The loop deletes records of desk [n] only, and at least the one it
    first meets. *)
Lemma clear_loop_only_desk fuel n i db db' :
  clear_loop fuel n i db = Done db' ->
  filter (fun r => desk_number r <> n) db'
  = filter (fun r => desk_number r <> n) db.
Proof.
  revert i db. induction fuel as [|fuel IH]; intros i db; [done|].
  simpl. destruct (db !! i) as [r|] eqn:Hi; [|by intros [= ->]].
  destruct (decide (desk_number r = n)) as [Heq|Hne]; [|apply IH].
  destruct (list_index_found db i r Hi) as (j & -> & Hj & Hjr).
  intros Hrun. rewrite (IH _ _ Hrun).
  apply (filter_delete_other _ db j r); [done|]. by intros ?.
Qed.

Lemma clear_loop_Done_sublist fuel n i db db' :
  clear_loop fuel n i db = Done db' -> db' `sublist_of` db.
Proof.
  revert i db. induction fuel as [|fuel IH]; intros i db; [done|].
  simpl. destruct (db !! i) as [r|] eqn:Hi; [|by intros [= ->]].
  destruct (decide (desk_number r = n)) as [Heq|Hne]; [|apply IH].
  destruct (list_index_found db i r Hi) as (j & -> & Hj & Hjr).
  intros Hrun. etrans; [by eapply IH | apply sublist_delete].
Qed.

Lemma clear_loop_shrinks fuel n i db db' :
  clear_loop fuel n i db = Done db' ->
  (exists j r, (i <= j)%nat /\ db !! j = Some r /\ desk_number r = n) ->
  (length db' < length db)%nat.
Proof.
  revert i db. induction fuel as [|fuel IH]; intros i db; [done|].
  simpl. intros Hrun (j & r & Hij & Hj & Hr).
  pose proof (lookup_lt_Some _ _ _ Hj) as Hlen.
  destruct (db !! i) as [ri|] eqn:Hi.
  2:{ apply lookup_ge_None in Hi. lia. }
  destruct (decide (desk_number ri = n)) as [Heq|Hne].
  - destruct (list_index_found db i ri Hi) as (k & Hk & Hki & Hkr).
    rewrite Hk in Hrun.
    apply clear_loop_Done_sublist, sublist_length in Hrun.
    rewrite length_delete in Hrun by eauto. lia.
  - apply (IH (S i) db Hrun). exists j, r. split; [|done].
    destruct (decide (i = j)) as [->|]; [congruence | lia].
Qed.

(** X1. [clear_desk_assignment] always comes to an end without raising.
    What it returns is the list with some records of desk [n] deleted and
    nothing else changed: the records of the other desks are all there, in
    their order; and when a record has desk [n], at least one record is
    deleted. *)
Theorem clear_deletes_only_that_desk n db :
  exists db',
    clear_desk_assignment n db = Done db' /\
    db' `sublist_of` db /\
    filter (fun r => desk_number r <> n) db'
    = filter (fun r => desk_number r <> n) db /\
    (n ∈ get_assigned_desk_numbers db -> (length db' < length db)%nat).
Proof.
  destruct (clear_desk_assignment_sublist n db) as (db' & Hrun & Hsub).
  exists db'. split; [done|]. split; [done|].
  split; [by eapply clear_loop_only_desk|].
  intros (r & Hr & Hdesk)%elem_of_desk_numbers.
  apply list_elem_of_lookup in Hr as [j Hj].
  eapply clear_loop_shrinks; [done|]. exists j, r. split; [lia | done].
Qed.

(** X2. When no two records share a desk number,
    [clear_desk_assignment n] returns exactly the records whose desk number
    is not [n]; desk [n] is then unassigned and the lookup of every other
    desk gives what it gave before. *)
Theorem clear_with_unique_desks n db :
  NoDup (get_assigned_desk_numbers db) ->
  let db' := filter (fun r => desk_number r <> n) db in
  clear_desk_assignment n db = Done db' /\
  (n ∉ get_assigned_desk_numbers db') /\
  get_user_name n db' = str "" /\
  forall n', n' <> n -> get_user_name n' db' = get_user_name n' db.
Proof.
  intros Hnodup db'.
  assert (n ∉ get_assigned_desk_numbers db') as Hgone.
  { intros (r & Hr & Hdesk)%elem_of_desk_numbers.
    apply list_elem_of_filter in Hr as [Hne _]. done. }
  split; [|split; [done|split; [by apply get_user_name_absent|]]].
  - destruct (decide (n ∈ get_assigned_desk_numbers db)) as [Hin|Hout].
    + apply elem_of_desk_numbers in Hin as (r & Hr & Hdesk).
      apply list_elem_of_split in Hr as (pre & suf & ->).
      rewrite desk_numbers_fmap, fmap_app, fmap_cons in Hnodup.
      apply NoDup_app in Hnodup as (_ & Hpre & Hsuf).
      apply NoDup_cons in Hsuf as [Hsuf _].
      assert (n ∉ get_assigned_desk_numbers pre) as Hnpre.
      { rewrite desk_numbers_fmap. intros Hin. apply (Hpre n Hin).
        rewrite Hdesk. left. }
      assert (n ∉ get_assigned_desk_numbers suf) as Hnsuf.
      { rewrite desk_numbers_fmap. by rewrite <- Hdesk. }
      rewrite clear_desk_assignment_unique by done.
      subst db'. rewrite filter_app, filter_cons_False by (by intros ?).
      rewrite !filter_keeps_all; [done| |].
      * intros r' Hr' Heq. apply Hnsuf, elem_of_desk_numbers. eauto.
      * intros r' Hr' Heq. apply Hnpre, elem_of_desk_numbers. eauto.
    + rewrite clear_desk_assignment_absent by done.
      subst db'. rewrite filter_keeps_all; [done|].
      intros r Hr Heq. apply Hout, elem_of_desk_numbers. eauto.
  - intros n' Hne. subst db'. clear Hnodup Hgone.
    induction db as [|r db IH]; [done|].
    destruct (decide (desk_number r = n)) as [Heq|Hneq].
    + rewrite filter_cons_False by (by intros ?). simpl.
      rewrite decide_False by congruence. done.
    + rewrite filter_cons_True by done. simpl.
      destruct (decide (desk_number r = n')); [done | apply IH].
Qed.

(** X3. When no two records share a desk number and no two share a user
    name, the two lookups are inverse to each other on the records of the
    store. *)
Theorem lookups_are_inverse db r :
  NoDup (get_assigned_desk_numbers db) ->
  NoDup (get_assigned_user_names db) ->
  r ∈ db ->
  get_user_name (desk_number r) db = user_name r /\
  get_desk_number (user_name r) db = desk_number r.
Proof.
  rewrite desk_numbers_fmap, user_names_fmap.
  induction db as [|r0 db IH]; intros Hdesks Hnames Hr.
  - by apply elem_of_nil in Hr.
  - rewrite fmap_cons in Hdesks. rewrite fmap_cons in Hnames.
    apply NoDup_cons in Hdesks as [Hd0 Hdesks].
    apply NoDup_cons in Hnames as [Hn0 Hnames].
    simpl. apply elem_of_cons in Hr as [->|Hr].
    + by rewrite !decide_True.
    + rewrite !decide_False; [by apply IH| |].
      * intros Heq. apply Hn0. rewrite Heq. by apply list_elem_of_fmap_2.
      * intros Heq. apply Hd0. rewrite Heq. by apply list_elem_of_fmap_2.
Qed.

(** X4. The results that stand for "not found" are safe as long as the
    store holds no empty name and no desk 0: [get_user_name n] is the empty
    string exactly when no record has desk [n], and [get_desk_number name]
    is 0 exactly when no record has that name. *)
Theorem not_found_results db n name :
  ([] ∉ get_assigned_user_names db ->
   (get_user_name n db = [] <-> n ∉ get_assigned_desk_numbers db)) /\
  (0 ∉ get_assigned_desk_numbers db ->
   (get_desk_number name db = 0 <-> name ∉ get_assigned_user_names db)).
Proof.
  rewrite desk_numbers_fmap, user_names_fmap. split.
  - induction db as [|r db IH]; simpl; intros Hnames.
    + split; [intros _; apply not_elem_of_nil | done].
    + apply not_elem_of_cons in Hnames as [Hr Hnames].
      rewrite not_elem_of_cons.
      destruct (decide (desk_number r = n)) as [Heq|Hne].
      * split; [intros Hempty; by destruct Hr | intros [Hn _]; by destruct Hn].
      * rewrite (IH Hnames). intuition congruence.
  - induction db as [|r db IH]; simpl; intros Hdesks.
    + split; [intros _; apply not_elem_of_nil | done].
    + apply not_elem_of_cons in Hdesks as [Hr Hdesks].
      rewrite not_elem_of_cons.
      destruct (decide (user_name r = name)) as [Heq|Hne].
      * split; [intros Hzero; by destruct Hr | intros [Hn _]; by destruct Hn].
      * rewrite (IH Hdesks). intuition congruence.
Qed.

Lemma get_user_name_app_found n db1 db2 :
  n ∈ get_assigned_desk_numbers db1 ->
  get_user_name n (db1 ++ db2) = get_user_name n db1.
Proof.
  rewrite desk_numbers_fmap.
  induction db1 as [|r db1 IH]; simpl; [by intros ?%elem_of_nil|].
  intros Hin. destruct (decide (desk_number r = n)); [done|].
  apply IH. apply elem_of_cons in Hin as [?|?]; [congruence | done].
Qed.

Lemma get_desk_number_app_found name db1 db2 :
  name ∈ get_assigned_user_names db1 ->
  get_desk_number name (db1 ++ db2) = get_desk_number name db1.
Proof.
  rewrite user_names_fmap.
  induction db1 as [|r db1 IH]; simpl; [by intros ?%elem_of_nil|].
  intros Hin. destruct (decide (user_name r = name)); [done|].
  apply IH. apply elem_of_cons in Hin as [?|?]; [congruence | done].
Qed.

(** X5. [add_desk_assignment n name] changes no lookup but those of a desk
    [n] and a name [name] that were not in the store: the lookup of any
    other desk or name, and of a desk or name that a record already has,
    gives what it gave before; the two lists of assigned numbers and names
    grow by [n] and [name] at their ends. *)
Theorem add_keeps_other_lookups db n name n' name' :
  (n' <> n \/ n' ∈ get_assigned_desk_numbers db ->
   get_user_name n' (add_desk_assignment n name db) = get_user_name n' db) /\
  (name' <> name \/ name' ∈ get_assigned_user_names db ->
   get_desk_number name' (add_desk_assignment n name db)
   = get_desk_number name' db) /\
  get_assigned_desk_numbers (add_desk_assignment n name db)
  = get_assigned_desk_numbers db ++ [n] /\
  get_assigned_user_names (add_desk_assignment n name db)
  = get_assigned_user_names db ++ [name].
Proof.
  unfold add_desk_assignment. split; [|split; [|split]].
  - intros Hcase.
    destruct (decide (n' ∈ get_assigned_desk_numbers db)) as [Hin|Hout].
    + by apply get_user_name_app_found.
    + destruct Hcase as [Hne|?]; [|done].
      rewrite get_user_name_app by done. simpl.
      rewrite decide_False by done. by rewrite get_user_name_absent.
  - intros Hcase.
    destruct (decide (name' ∈ get_assigned_user_names db)) as [Hin|Hout].
    + by apply get_desk_number_app_found.
    + destruct Hcase as [Hne|?]; [|done].
      rewrite get_desk_number_app by done. simpl.
      rewrite decide_False by done. by rewrite get_desk_number_absent.
  - by rewrite !desk_numbers_fmap, fmap_app.
  - by rewrite !user_names_fmap, fmap_app.
Qed.

End StoreMore.

Lemma clear_deletes_only_that_desk_witness :
  exists db',
    clear_desk_assignment 7 three_desks = Done db' /\
    (length db' < length three_desks)%nat.
Proof.
  destruct (clear_deletes_only_that_desk 7 three_desks)
    as (db' & Hrun & _ & _ & Hshrinks).
  exists db'. split; [exact Hrun|]. apply Hshrinks.
  apply (bool_decide_unpack _). vm_compute. exact I.
Defined.

Lemma clear_with_unique_desks_witness :
  clear_desk_assignment 7 three_desks
  = Done [Record_ (str "Bob") 5; Record_ (str "Cy") 6].
Proof.
  apply (clear_with_unique_desks 7 three_desks).
  apply (bool_decide_unpack _). vm_compute. exact I.
Defined.

Lemma lookups_are_inverse_witness :
  get_user_name 7 three_desks = str "Al" /\
  get_desk_number (str "Al") three_desks = 7.
Proof.
  apply (lookups_are_inverse three_desks (Record_ (str "Al") 7));
    apply (bool_decide_unpack _); vm_compute; exact I.
Defined.

Lemma not_found_results_witness :
  (get_user_name 9 three_desks = [] <->
   9 ∉ get_assigned_desk_numbers three_desks) /\
  (get_desk_number (str "Zed") three_desks = 0 <->
   str "Zed" ∉ get_assigned_user_names three_desks).
Proof.
  destruct (not_found_results three_desks 9 (str "Zed")) as [Hdesk Hname].
  split; [apply Hdesk | apply Hname];
    apply (bool_decide_unpack _); vm_compute; exact I.
Defined.

Lemma add_keeps_other_lookups_witness :
  get_user_name 5 (add_desk_assignment 5 (str "Eve") three_desks)
  = get_user_name 5 three_desks /\
  get_desk_number (str "Al") (add_desk_assignment 5 (str "Eve") three_desks)
  = get_desk_number (str "Al") three_desks.
Proof.
  destruct (add_keeps_other_lookups three_desks 5 (str "Eve") 5 (str "Al"))
    as (Hdesk & Hname & _).
  split.
  - apply Hdesk. right. apply (bool_decide_unpack _). vm_compute. exact I.
  - apply Hname. left. discriminate.
Defined.

(** ** Text of numbers *)

Section Numerals.

Context {U : Unicode}.

Hypothesis Hascii : ascii_digits U.

Lemma str_pretty_N_go x s :
  str (pretty_N_go x s) = str (pretty_N_go x "") ++ str s.
Proof.
  revert s. induction (N.lt_wf_0 x) as [x _ IH]; intros s.
  destruct (decide (x = 0)%N) as [->|Hx].
  - by rewrite !pretty_N_go_0.
  - assert (x `div` 10 < x)%N as Hlt by (apply N.div_lt; lia).
    rewrite !(pretty_N_go_step x) by lia.
    rewrite (IH _ Hlt (String _ s)), (IH _ Hlt (String _ "")).
    simpl. by rewrite <- app_assoc.
Qed.

Lemma int_digits_app acc l1 l2 :
  int_digits acc (l1 ++ l2) =
    match int_digits acc l1 with
    | Some v => int_digits v l2
    | None => None
    end.
Proof.
  revert acc. induction l1 as [|c l1 IH]; intros acc; simpl; [done|].
  destruct (decimal_value c); [apply IH | done].
Qed.

Lemma pretty_N_char_code d :
  (d < 10)%N -> N_of_ascii (pretty_N_char d) = (48 + d)%N.
Proof.
  intros Hd.
  assert (d = 0 \/ d = 1 \/ d = 2 \/ d = 3 \/ d = 4 \/ d = 5 \/ d = 6 \/
          d = 7 \/ d = 8 \/ d = 9)%N as Hcases by lia.
  repeat (destruct Hcases as [->|Hcases]; [reflexivity|]).
  by subst.
Qed.

Lemma numeral_go x :
  int_digits 0 (str (pretty_N_go x "")) = Some (Z.of_N x) /\
  forallb is_digit (str (pretty_N_go x "")) = true.
Proof.
  induction (N.lt_wf_0 x) as [x _ IH].
  destruct (decide (x = 0)%N) as [->|Hx].
  - by rewrite pretty_N_go_0.
  - assert (x `div` 10 < x)%N as Hlt by (apply N.div_lt; lia).
    assert (x `mod` 10 < 10)%N as Hmod by (apply N.mod_lt; lia).
    pose proof (N.div_mod x 10 ltac:(lia)) as Hx10.
    destruct (IH _ Hlt) as [Hval Hdig].
    rewrite pretty_N_go_step, str_pretty_N_go by lia.
    simpl. rewrite pretty_N_char_code by done.
    set (m := (x `mod` 10)%N) in *. set (q := (x `div` 10)%N) in *.
    clearbody m q.
    destruct (Hascii (48 + m)%N) as [Hd Hv]; [lia|].
    split.
    + rewrite int_digits_app, Hval. simpl. rewrite Hv. f_equal. lia.
    + rewrite forallb_app, Hdig. simpl. by rewrite Hd.
Qed.

(** The decimal text of a number that is not negative is accepted by
    [isdigit] and read back by [int]. *)
Lemma numeral_reads_back n :
  0 <= n -> isdigit (str_of_int n) = true /\ int (str_of_int n) = Done n.
Proof.
  intros Hn. unfold str_of_int, isdigit, int.
  destruct n as [|p|p]; [| |lia].
  - destruct (Hascii 48%N) as [Hd Hv]; [lia|].
    change (str (pretty 0)) with [48%N]. simpl. by rewrite Hd, Hv.
  - change (pretty (Z.pos p)) with (pretty_N_go (N.pos p) "").
    destruct (numeral_go (N.pos p)) as [Hval Hdig].
    rewrite Hval, Hdig.
    destruct (str (pretty_N_go (N.pos p) "")) eqn:Hs; [|done].
    simpl in Hval. discriminate Hval.
Qed.

End Numerals.

Lemma latin1_ascii_digits : ascii_digits latin1.
Proof.
  intros c Hc.
  assert (c = 48 \/ c = 49 \/ c = 50 \/ c = 51 \/ c = 52 \/ c = 53 \/
          c = 54 \/ c = 55 \/ c = 56 \/ c = 57)%N as Hcases by lia.
  repeat (destruct Hcases as [->|Hcases]; [by split|]).
  by subst.
Qed.

(** ** More on the Assign and Clear flows *)

Section FlowsMore.

Context {U : Unicode}.

Implicit Types (w : world) (db : list record) (name : pystr) (n d : Z).

Local Arguments isdigit : simpl never.
Local Arguments int : simpl never.
Local Arguments str : simpl never.

(** X6. With fewer than 50 records, whatever they are, a desk of the pool
    is free: [random.choice] is not given an empty list, and the selection
    returns a desk of 1..50 that no record has. *)
Theorem free_desk_always_available w :
  Z.of_nat (length (database w)) < DESK_POOL ->
  free_desks (database w) <> [] /\
  exists d,
    select_free_desk w = Ret d (set_entropy (tl (entropy w)) w) /\
    1 <= d <= DESK_POOL /\
    d ∉ get_assigned_desk_numbers (database w).
Proof.
  intros Hroom. split; [by apply free_desks_nonempty|].
  destruct (select_free_desk_returns w Hroom) as (d & Hd & Hsel).
  exists d. split; [done|]. by apply elem_of_free_desks.
Qed.

(** X7. In [assign_desk], with room in the store, a name of 2 to 17
    characters that no record has is given a desk [d] of the pool that no
    record had: the record (name, d) is appended, the confirmation names
    [d], and after a key the handler returns.  The two lookups then find
    the new record. *)
Theorem assign_new_name w name rest :
  Z.of_nat (length (database w)) < DESK_POOL ->
  (2 <= length name <= 17)%nat ->
  name ∉ get_assigned_user_names (database w) ->
  pending w = name :: rest ->
  exists d,
    (1 <= d <= DESK_POOL /\ d ∉ get_assigned_desk_numbers (database w)) /\
    let w' :=
      set_database (database w ++ [Record_ name d])
        (set_entropy (tl (entropy w))
           (show (prompt_ops Msg.enter_user_name ++ after_input_ops ++
                  [Clear; Border; AddStr 2 2 (Msg.assigned name d);
                   AddStr (rows w - 2) 2 Msg.press_any_key]) w)) in
    assign_desk w =
      match rest with
      | [] => Blocked (set_pending [] w')
      | _ :: rest' => Ret tt (set_pending rest' w')
      end /\
    get_user_name d (database w') = name /\
    get_desk_number name (database w') = d.
Proof.
  intros Hroom Hlen Hnew Hpending.
  set (w1 := set_pending rest
               (show (prompt_ops Msg.enter_user_name ++ after_input_ops) w)).
  destruct (select_free_desk_returns w1 Hroom) as (d & Hd & Hsel).
  apply elem_of_free_desks in Hd as [Hrange Hfree].
  exists d. split; [done|]. intros w'. split; [|split].
  - rewrite assign_desk_not_full by done.
    rewrite loop_unfold by apply assign_body_consumes.
    unfold bind at 1. unfold assign_body, bind, ret, reads.
    run_io. rewrite Hpending. simpl.
    rewrite !bool_decide_false by (done || lia).
    subst w1. simpl in Hsel. rewrite Hsel. unfold update. simpl.
    run_io. rewrite message_ops_shown by done.
    subst w'. destruct w as [db keys ops rnd r c f dk].
    simpl in *. subst keys.
    destruct rest as [|key rest']; simpl; f_equal; same_world.
  - simpl. rewrite get_user_name_app by done. simpl. by rewrite decide_True.
  - simpl. rewrite get_desk_number_app by done. simpl. by rewrite decide_True.
Qed.

(** X8. The length checks of [assign_desk], with room in the store: the
    empty answer returns to the menu with nothing shown after the prompt;
    an answer of one character shows "User name too short.", an answer of
    more than 17 characters "User name too long.", and in both cases the
    store is as before and the prompt comes again. *)
Theorem assign_name_length_checked w name rest :
  Z.of_nat (length (database w)) < DESK_POOL ->
  pending w = name :: rest ->
  let told message :=
    show (prompt_ops Msg.enter_user_name ++ after_input_ops ++
          [Clear; Border; AddStr 2 2 message;
           AddStr (rows w - 2) 2 Msg.press_any_key]) w in
  let again message :=
    match rest with
    | [] => Blocked (set_pending [] (told message))
    | _ :: rest' => assign_desk (set_pending rest' (told message))
    end in
  (forall message, database (told message) = database w) /\
  (length name = 0%nat ->
   assign_desk w =
     Ret tt (set_pending rest
               (show (prompt_ops Msg.enter_user_name ++ after_input_ops) w))) /\
  (length name = 1%nat -> assign_desk w = again Msg.too_short) /\
  ((17 < length name)%nat -> assign_desk w = again Msg.too_long).
Proof.
  intros Hroom Hpending told again. split; [done|].
  rewrite assign_desk_not_full by done.
  rewrite loop_unfold by apply assign_body_consumes.
  unfold bind at 1. unfold assign_body, bind, ret.
  run_io. rewrite Hpending. simpl.
  split; [|split].
  - intros Hlen. by rewrite bool_decide_true.
  - intros Hlen. rewrite bool_decide_false by lia.
    rewrite bool_decide_true by lia.
    run_io. rewrite message_ops_shown by done.
    subst again told. destruct w as [db keys ops rnd r c f dk].
    simpl in *. subst keys.
    destruct rest as [|key rest']; simpl.
    + f_equal. same_world.
    + rewrite assign_desk_not_full by done. f_equal. same_world.
  - intros Hlen. rewrite !bool_decide_false by lia.
    rewrite bool_decide_true by lia.
    run_io. rewrite message_ops_shown by done.
    subst again told. destruct w as [db keys ops rnd r c f dk].
    simpl in *. subst keys.
    destruct rest as [|key rest']; simpl.
    + f_equal. same_world.
    + rewrite assign_desk_not_full by done. f_equal. same_world.
Qed.

Lemma clear_desk_numeral w n pre r suf rest :
  ascii_digits U ->
  database w = pre ++ r :: suf ->
  desk_number r = n ->
  n ∉ get_assigned_desk_numbers pre ->
  n ∉ get_assigned_desk_numbers suf ->
  1 <= n <= DESK_POOL ->
  pending w = str_of_int n :: rest ->
  clear_desk w =
    match rest with
    | [] =>
        Blocked
          (set_pending []
             (set_database (pre ++ suf)
                (show (prompt_ops Msg.enter_desk_number ++ after_input_ops ++
                       [Clear; Border; AddStr 2 2 (Msg.cleared n);
                        AddStr (rows w - 2) 2 Msg.press_any_key]) w)))
    | _ :: rest' =>
        Ret tt
          (set_pending rest'
             (set_database (pre ++ suf)
                (show (prompt_ops Msg.enter_desk_number ++ after_input_ops ++
                       [Clear; Border; AddStr 2 2 (Msg.cleared n);
                        AddStr (rows w - 2) 2 Msg.press_any_key]) w)))
    end.
Proof.
  intros Hascii Hdb Hr Hpre Hsuf Hn Hpending.
  destruct (numeral_reads_back Hascii n) as [Hd Hi]; [lia|].
  by apply (clear_desk_removes w (str_of_int n) n pre r suf rest).
Qed.

(** X10. Where the ASCII digits are decimal digits: in [clear_desk], the
    decimal text of a desk number of 1..50 that exactly one record has
    deletes that record, keeps the others in their order and shows the
    confirmation for that desk. *)
Theorem clear_by_numeral w n pre r suf rest :
  ascii_digits U ->
  database w = pre ++ r :: suf ->
  desk_number r = n ->
  n ∉ get_assigned_desk_numbers pre ->
  n ∉ get_assigned_desk_numbers suf ->
  1 <= n <= DESK_POOL ->
  pending w = str_of_int n :: rest ->
  let w' := set_database (pre ++ suf)
              (show (prompt_ops Msg.enter_desk_number ++ after_input_ops ++
                     [Clear; Border; AddStr 2 2 (Msg.cleared n);
                      AddStr (rows w - 2) 2 Msg.press_any_key]) w) in
  clear_desk w =
    match rest with
    | [] => Blocked (set_pending [] w')
    | _ :: rest' => Ret tt (set_pending rest' w')
    end.
Proof.
  intros Hascii Hdb Hr Hpre Hsuf Hn Hpending w'.
  by apply (clear_desk_numeral w n pre r suf rest).
Qed.

(** X11. Where the ASCII digits are decimal digits: a desk given by
    [assign_desk] is given back by [clear_desk].  After a new name has been
    assigned desk [d], answering the prompt of [clear_desk] with the
    decimal text of [d] leaves the store as it was before the
    assignment. *)
Theorem assign_then_clear_restores w name key :
  ascii_digits U ->
  Z.of_nat (length (database w)) < DESK_POOL ->
  (2 <= length name <= 17)%nat ->
  name ∉ get_assigned_user_names (database w) ->
  pending w = [name; key] ->
  exists d w1,
    assign_desk w = Ret tt w1 /\
    database w1 = database w ++ [Record_ name d] /\
    forall key' rest, exists w2,
      clear_desk (set_pending (str_of_int d :: key' :: rest) w1) = Ret tt w2 /\
      database w2 = database w /\
      pending w2 = rest.
Proof.
  intros Hascii Hroom Hlen Hnew Hpending.
  set (w0 := set_pending [key]
               (show (prompt_ops Msg.enter_user_name ++ after_input_ops) w)).
  destruct (select_free_desk_returns w0 Hroom) as (d & Hd & Hsel).
  apply elem_of_free_desks in Hd as [Hrange Hfree].
  simpl in Hfree.
  eexists d, _. split; [|split].
  - rewrite assign_desk_not_full by done.
    rewrite loop_unfold by apply assign_body_consumes.
    unfold bind at 1. unfold assign_body, bind, ret, reads.
    run_io. rewrite Hpending. simpl.
    rewrite !bool_decide_false by (done || lia).
    subst w0. simpl in Hsel. rewrite Hsel. unfold update. simpl.
    run_io. reflexivity.
  - reflexivity.
  - intros key' rest. eexists. split; [|split].
    + rewrite (clear_desk_numeral _ d (database w) (Record_ name d) []
                 (key' :: rest) Hascii); try done.
      vm_compute. by intros ?%elem_of_nil.
    + simpl. by rewrite app_nil_r.
    + reflexivity.
Qed.

End FlowsMore.

Lemma free_desk_always_available_witness :
  free_desks bob5 <> [] /\
  exists d,
    select_free_desk (sample_world bob5 [] [7%nat])
      = Ret d (sample_world bob5 [] []) /\
    1 <= d <= DESK_POOL /\
    d ∉ get_assigned_desk_numbers bob5.
Proof.
  apply (free_desk_always_available (sample_world bob5 [] [7%nat])).
  by vm_compute.
Defined.

Lemma assign_new_name_witness :
  exists d w',
    assign_desk (sample_world bob5 [str "Alice"; str "k"] [7%nat])
      = Ret tt w' /\
    database w' = bob5 ++ [Record_ (str "Alice") d] /\
    get_desk_number (str "Alice") (database w') = d.
Proof.
  destruct (assign_new_name
              (sample_world bob5 [str "Alice"; str "k"] [7%nat])
              (str "Alice") [str "k"])
    as (d & _ & Hrun & _ & Hfind).
  - by vm_compute.
  - simpl. lia.
  - apply (bool_decide_unpack _). vm_compute. exact I.
  - reflexivity.
  - exists d. eexists. split; [exact Hrun|]. split; [reflexivity | exact Hfind].
Defined.

Lemma assign_name_length_checked_witness :
  assign_desk (sample_world bob5 [str "A"; str "k"; str ""] []) =
    assign_desk
      (set_pending [str ""]
         (show (prompt_ops Msg.enter_user_name ++ after_input_ops ++
                [Clear; Border; AddStr 2 2 Msg.too_short;
                 AddStr 22 2 Msg.press_any_key])
               (sample_world bob5 [str "A"; str "k"; str ""] []))).
Proof.
  destruct (assign_name_length_checked
              (sample_world bob5 [str "A"; str "k"; str ""] [])
              (str "A") [str "k"; str ""])
    as (_ & _ & Hshort & _).
  - by vm_compute.
  - reflexivity.
  - apply Hshort. reflexivity.
Defined.

Lemma clear_by_numeral_witness :
  @clear_desk latin1 (sample_world three_desks [str "7"; str "k"] []) =
    Ret tt
      (set_pending []
         (set_database [Record_ (str "Bob") 5; Record_ (str "Cy") 6]
            (show (prompt_ops Msg.enter_desk_number ++ after_input_ops ++
                   [Clear; Border; AddStr 2 2 (Msg.cleared 7);
                    AddStr 22 2 Msg.press_any_key])
                  (sample_world three_desks [str "7"; str "k"] [])))).
Proof.
  apply (@clear_by_numeral latin1
           (sample_world three_desks [str "7"; str "k"] []) 7
           [Record_ (str "Bob") 5] (Record_ (str "Al") 7)
           [Record_ (str "Cy") 6] [str "k"]).
  - apply latin1_ascii_digits.
  - reflexivity.
  - reflexivity.
  - apply (bool_decide_unpack _). vm_compute. exact I.
  - apply (bool_decide_unpack _). vm_compute. exact I.
  - by vm_compute.
  - reflexivity.
Defined.

Lemma assign_then_clear_restores_witness :
  exists d w1,
    assign_desk (sample_world bob5 [str "Alice"; str "k"] [7%nat])
      = Ret tt w1 /\
    database w1 = bob5 ++ [Record_ (str "Alice") d] /\
    forall key' rest, exists w2,
      @clear_desk latin1 (set_pending (str_of_int d :: key' :: rest) w1)
        = Ret tt w2 /\
      database w2 = bob5 /\
      pending w2 = rest.
Proof.
  apply (@assign_then_clear_restores latin1
           (sample_world bob5 [str "Alice"; str "k"] [7%nat])
           (str "Alice") (str "k")).
  - apply latin1_ascii_digits.
  - by vm_compute.
  - simpl. lia.
  - apply (bool_decide_unpack _). vm_compute. exact I.
  - reflexivity.
Defined.

(** ** What the two flows can do to the store *)

Section FlowEffects.

Context {U : Unicode}.

Implicit Types (w : world) (db : list record).

Local Arguments isdigit : simpl never.
Local Arguments int : simpl never.

Lemma assign_body_appends w :
  iteration_of
    (fun db db' =>
       db' = db \/
       exists d name,
         (1 <= d <= DESK_POOL /\ d ∉ get_assigned_desk_numbers db) /\
         (name ∉ get_assigned_user_names db) /\
         (2 <= length name <= 17)%nat /\
         db' = db ++ [Record_ name d])
    w (assign_body w).
Proof.
  destruct w as [db keys ops rnd r c f d].
  unfold iteration_of, effect_of, ends_with, assign_body, bind, ret.
  run_io.
  destruct keys as [|name rest]; simpl; [by split; [split; [left|] |]|].
  case_bool_decide.
  { simpl. split; [split; [by left | lia]|done]. }
  case_bool_decide.
  { run_io. destruct rest; simpl.
    - split; [split; [by left | lia]|done].
    - split; [split; [by left | lia]|].
      intros w' [= <-]. simpl. split; [done|lia]. }
  case_bool_decide.
  { run_io. destruct rest; simpl.
    - split; [split; [by left | lia]|done].
    - split; [split; [by left | lia]|].
      intros w' [= <-]. simpl. split; [done|lia]. }
  unfold reads; simpl.
  case_bool_decide.
  { run_io. destruct rest; simpl.
    - split; [split; [by left | lia]|done].
    - split; [split; [by left | lia]|].
      intros w' [= <-]. simpl. split; [done|lia]. }
  unfold select_free_desk, bind, reads, random_choice, update. simpl.
  destruct (free_desks db !! _) as [desk|] eqn:Hdesk; simpl.
  - apply list_elem_of_lookup_2, elem_of_free_desks in Hdesk.
    assert (2 <= length name <= 17)%nat by lia.
    run_io. destruct rest; simpl.
    + split; [|done]. split; [|lia]. right. by exists desk, name.
    + split; [|done]. split; [|lia]. right. by exists desk, name.
  - split; [split; [by left | lia]|done].
Qed.

(** X12. Whatever is typed, a call of [assign_desk] ends, and it has then
    left the store as it was or, the store having had fewer than 50
    records, has appended one record: a desk of 1..50 that no record had,
    with a name of 2 to 17 characters that no record had. *)
Theorem assign_appends_at_most_one w :
  ends_with
    (fun w' =>
       database w' = database w \/
       (Z.of_nat (length (database w)) < DESK_POOL /\
        exists d name,
          (1 <= d <= DESK_POOL /\
           d ∉ get_assigned_desk_numbers (database w)) /\
          (name ∉ get_assigned_user_names (database w)) /\
          (2 <= length name <= 17)%nat /\
          database w' = database w ++ [Record_ name d]))
    (assign_desk w).
Proof.
  destruct (decide (DESK_POOL <= Z.of_nat (length (database w))))
    as [Hfull|Hroom].
  - rewrite assign_desk_full by done.
    eapply ends_with_mono; [|apply wait_for_key_effect].
    intros w' [Hdb _]. by left.
  - rewrite assign_desk_not_full by lia.
    eapply ends_with_mono; [|apply (loop_effect _ _ w assign_body_appends)].
    intros w' [[->|Hadd] _]; [by left|]. right. split; [lia | done].
Qed.

Lemma clear_body_deletes w :
  iteration_of
    (fun db db' =>
       db' = db \/
       exists n,
         1 <= n <= DESK_POOL /\ n ∈ get_assigned_desk_numbers db /\
         clear_desk_assignment n db = Done db')
    w (clear_body w).
Proof.
  destruct w as [db keys ops rnd r c f d].
  unfold iteration_of, effect_of, ends_with, clear_body, bind, ret.
  run_io.
  destruct keys as [|input rest]; simpl; [by split; [split; [left|] |]|].
  case_bool_decide.
  { simpl. split; [split; [by left | lia]|done]. }
  destruct (isdigit input); simpl.
  2:{ run_io. destruct rest; simpl.
      - split; [split; [by left | lia]|done].
      - split; [split; [by left | lia]|].
        intros w' [= <-]. simpl. split; [done|lia]. }
  unfold lift. pose proof (int_returns_or_raises input) as Hint.
  destruct (int input) as [n|e|]; simpl; [| |done].
  2:{ split; [split; [by left | lia]|done]. }
  case_bool_decide; simpl.
  2:{ run_io. destruct rest; simpl.
      - split; [split; [by left | lia]|done].
      - split; [split; [by left | lia]|].
        intros w' [= <-]. simpl. split; [done|lia]. }
  unfold reads; simpl. case_bool_decide as Hin; simpl.
  { run_io. destruct rest; simpl.
    - split; [split; [by left | lia]|done].
    - split; [split; [by left | lia]|].
      intros w' [= <-]. simpl. split; [done|lia]. }
  unfold update_res; simpl.
  destruct (clear_desk_assignment_sublist n db) as (db' & Hrun & Hsub).
  rewrite Hrun.
  run_io. destruct rest; simpl.
  - split; [|done]. split; [|lia]. right. by exists n.
  - split; [|done]. split; [|lia]. right. by exists n.
Qed.

(** X13. Whatever is typed, a call of [clear_desk] ends, and it has then
    left the store as it was or has applied [clear_desk_assignment n] once,
    for a desk number [n] of 1..50 that a record had. *)
Theorem clear_deletes_one_desk w :
  ends_with
    (fun w' =>
       database w' = database w \/
       exists n,
         1 <= n <= DESK_POOL /\
         n ∈ get_assigned_desk_numbers (database w) /\
         clear_desk_assignment n (database w) = Done (database w'))
    (clear_desk w).
Proof.
  destruct (decide (database w = [])) as [Hempty|Hsome].
  - rewrite clear_desk_empty by done.
    eapply ends_with_mono; [|apply wait_for_key_effect].
    intros w' [Hdb _]. by left.
  - rewrite clear_desk_nonempty by done.
    eapply ends_with_mono; [|apply (loop_effect _ _ w clear_body_deletes)].
    intros w' [[->|Hdel] _]; [by left | by right].
Qed.

End FlowEffects.

(** ** The two listings *)

Section Listing.

Context {U : Unicode}.
Implicit Types (w : world).
Local Arguments str : simpl never.






End Listing.
(** ** The environment, the menu and the session *)

Section Environment.

Context {U : Unicode}.

Implicit Types (w : world).

Local Arguments str : simpl never.

Lemma keeps_env_ret {A} (a : A) : keeps_env (ret a).
Proof. by intros w. Qed.

Lemma keeps_env_bind {A B} (m : M A) (k : A -> M B) :
  keeps_env m -> (forall a, keeps_env (k a)) -> keeps_env (let* a := m in k a).
Proof.
  intros Hm Hk w. unfold bind. specialize (Hm w).
  destruct (m w) as [a w1|w1|e w1|]; simpl in *; try done.
  specialize (Hk a w1). destruct (final (k a w1)); [congruence | done].
Qed.

Lemma keeps_env_put op : keeps_env (put op).
Proof. by intros w. Qed.

Lemma keeps_env_getkey : keeps_env getkey.
Proof. intros w. unfold getkey. by destruct (pending w). Qed.

Lemma keeps_env_getstr : keeps_env getstr.
Proof. intros w. unfold getstr. by destruct (pending w). Qed.

Lemma keeps_env_getmaxyx : keeps_env getmaxyx.
Proof. by intros w. Qed.

Lemma keeps_env_reads {A} (f : list record -> A) : keeps_env (reads f).
Proof. by intros w. Qed.

Lemma keeps_env_update f : keeps_env (update f).
Proof. by intros w. Qed.

Lemma keeps_env_update_res f : keeps_env (update_res f).
Proof. intros w. unfold update_res. by destruct (f (database w)). Qed.

Lemma keeps_env_lift {A} (r : res A) : keeps_env (lift r).
Proof. intros w. by destruct r. Qed.

Lemma keeps_env_random_choice seq : keeps_env (random_choice seq).
Proof. intros w. unfold random_choice. by destruct (seq !! _). Qed.

Lemma keeps_env_while steps (body : M ctl) :
  keeps_env body -> keeps_env (while_true steps body).
Proof.
  intros Hbody. induction steps as [|steps IH]; [by intros w|].
  simpl. apply keeps_env_bind; [done|].
  intros [|]; [apply keeps_env_ret | done].
Qed.

Lemma keeps_env_loop (body : M ctl) : keeps_env body -> keeps_env (loop body).
Proof. intros Hbody w. by apply keeps_env_while. Qed.

Lemma keeps_env_for_each {A S} (items : list A) (body : A -> S -> M S) s :
  (forall a s, keeps_env (body a s)) -> keeps_env (for_each items body s).
Proof.
  intros Hbody. revert s. induction items as [|a items IH]; intros s; simpl.
  - apply keeps_env_ret.
  - apply keeps_env_bind; [apply Hbody | apply IH].
Qed.

Ltac keeps_step :=
  first
    [ apply keeps_env_ret
    | apply keeps_env_put
    | apply keeps_env_getkey
    | apply keeps_env_getstr
    | apply keeps_env_getmaxyx
    | apply keeps_env_reads
    | apply keeps_env_update
    | apply keeps_env_update_res
    | apply keeps_env_lift
    | apply keeps_env_random_choice
    | apply keeps_env_loop
    | apply keeps_env_for_each; intros ? [? ?]
    | apply keeps_env_bind; [|intros ?]
    | match goal with
      | |- keeps_env (if ?b then _ else _) => destruct b
      | |- keeps_env (let '(_, _) := ?p in _) => destruct p
      end ].

Lemma keeps_env_wait_for_key message : keeps_env (wait_for_key message).
Proof. unfold wait_for_key, clear, border, addstr. repeat keeps_step. Qed.

Lemma keeps_env_get_user_input message : keeps_env (get_user_input message).
Proof.
  unfold get_user_input, clear, border, addstr, echo, noecho, curs_set.
  repeat keeps_step.
Qed.

Lemma keeps_env_assign_desk : keeps_env assign_desk.
Proof.
  unfold assign_desk, assign_body, select_free_desk.
  repeat first [ apply keeps_env_wait_for_key
               | apply keeps_env_get_user_input
               | keeps_step ].
Qed.

Lemma keeps_env_clear_desk : keeps_env clear_desk.
Proof.
  unfold clear_desk, clear_body.
  repeat first [ apply keeps_env_wait_for_key
               | apply keeps_env_get_user_input
               | keeps_step ].
Qed.

Lemma keeps_env_show_desks : keeps_env show_desks.
Proof.
  unfold show_desks, clear, border, addstr.
  repeat first [ apply keeps_env_wait_for_key | keeps_step ].
Qed.

Lemma keeps_env_show_users : keeps_env show_users.
Proof.
  unfold show_users, clear, border, addstr.
  repeat first [ apply keeps_env_wait_for_key | keeps_step ].
Qed.

Lemma keeps_env_menu_body : keeps_env menu_body.
Proof.
  unfold menu_body, clear, border, addstr.
  repeat first [ apply keeps_env_assign_desk
               | apply keeps_env_clear_desk
               | apply keeps_env_show_desks
               | apply keeps_env_show_users
               | keeps_step ].
Qed.


Lemma put_then {A} op (k : M A) w : (put op ;; k) w = k (show [op] w).
Proof. reflexivity. Qed.

Lemma getkey_then {A} (k : pystr -> M A) w key rest :
  pending w = key :: rest ->
  (let* x := getkey in k x) w = k key (set_pending rest w).
Proof. intros Hpending. unfold bind, getkey. by rewrite Hpending. Qed.

Lemma menu_body_run w key rest :
  24 <= rows w -> 80 <= cols w ->
  pending w = key :: rest ->
  menu_body w =
    (if decide (key = str "1") then assign_desk ;; ret Continue
     else if decide (key = str "2") then clear_desk ;; ret Continue
     else if decide (key = str "3") then show_desks ;; ret Continue
     else if decide (key = str "4") then show_users ;; ret Continue
     else if decide (key = str "0") then ret Break
     else ret Continue) (set_pending rest (show menu_ops w)).
Proof.
  intros Hrows Hcols Hpending.
  unfold menu_body. unfold bind at 1. unfold getmaxyx at 1. cbn [fst snd].
  rewrite (bool_decide_false (rows w < 24)) by lia.
  rewrite (bool_decide_false (cols w < 80)) by lia.
  cbn [orb]. unfold clear, border, addstr.
  rewrite !put_then, !show_show.
  by rewrite (getkey_then _ _ key rest).
Qed.

Lemma menu_loop_key w key rest :
  24 <= rows w -> 80 <= cols w ->
  pending w = key :: rest ->
  loop menu_body w =
    if decide (key = str "1")
    then (assign_desk ;; loop menu_body) (set_pending rest (show menu_ops w))
    else if decide (key = str "2")
    then (clear_desk ;; loop menu_body) (set_pending rest (show menu_ops w))
    else if decide (key = str "3")
    then (show_desks ;; loop menu_body) (set_pending rest (show menu_ops w))
    else if decide (key = str "4")
    then (show_users ;; loop menu_body) (set_pending rest (show menu_ops w))
    else if decide (key = str "0")
    then Ret tt (set_pending rest (show menu_ops w))
    else loop menu_body (set_pending rest (show menu_ops w)).
Proof.
  intros Hrows Hcols Hpending.
  rewrite loop_unfold by apply menu_body_consumes.
  unfold bind at 1. rewrite (menu_body_run w key rest) by done.
  set (w1 := set_pending rest (show menu_ops w)).
  repeat case_decide; try done; unfold bind, ret;
    match goal with
    | |- context [match ?h w1 with _ => _ end] => by destruct (h w1)
    end.
Qed.

(** X16. With a terminal of at least 24 rows and 80 columns, one turn of
    the menu loop draws the menu, reads a key and acts on it: "1" to "4"
    run [assign_desk], [clear_desk], [show_desks] or [show_users] and then
    the loop goes on; "0" ends the loop; on any other key nothing is done
    and the loop goes on, drawing the menu again. *)
Theorem menu_dispatch w key rest :
  24 <= rows w -> 80 <= cols w ->
  pending w = key :: rest ->
  let w1 := set_pending rest (show menu_ops w) in
  loop menu_body w =
    if decide (key = str "1") then (assign_desk ;; loop menu_body) w1
    else if decide (key = str "2") then (clear_desk ;; loop menu_body) w1
    else if decide (key = str "3") then (show_desks ;; loop menu_body) w1
    else if decide (key = str "4") then (show_users ;; loop menu_body) w1
    else if decide (key = str "0") then Ret tt w1
    else loop menu_body w1.
Proof.
  intros Hrows Hcols Hpending w1. by apply menu_loop_key.
Qed.


(** X18. With a terminal of at least 24 rows and 80 columns, the key "0"
    ends [main]'s menu: the store is written to the file and the function
    returns.  It returns in the same way when the file cannot be written:
    the result of [write_database_file] is dropped, the file is then as it
    was (the open failed) or damaged (a write failed), and nothing is
    shown. *)
Theorem exit_saves w rest :
  24 <= rows w -> 80 <= cols w ->
  pending w = str "0" :: rest ->
  menu w =
    Ret tt
      (set_file
         match disk w with
         | Writable => Document (store_value (database w))
         | OpenFails => file w
         | WriteFails => Garbled
         end
         (set_pending rest (show ([NoEcho; CursSet false] ++ menu_ops) w))).
Proof.
  intros Hrows Hcols Hpending.
  unfold menu. unfold bind at 1. unfold noecho at 1, put at 1.
  unfold bind at 1. unfold curs_set at 1, put at 1.
  unfold bind at 1.
  rewrite (menu_loop_key _ (str "0") rest) by done.
  simpl. destruct w as [db keys ops rnd r c f d]. simpl in *.
  destruct d; simpl; f_equal; unfold set_file; simpl; f_equal;
    rewrite <- ?app_assoc; reflexivity.
Qed.


(** When the menu returns with a writable disk, the file holds the
    store. *)
Lemma menu_returns_saved w w' :
  menu w = Ret tt w' ->
  disk w = Writable ->
  file w' = Document (store_value (database w')).
Proof.
  intros Hmenu Hdisk.
  unfold menu, noecho, curs_set in Hmenu.
  rewrite !put_then in Hmenu.
  set (w2 := show [CursSet false] (show [NoEcho] w)) in Hmenu.
  pose proof (keeps_env_loop menu_body keeps_env_menu_body w2) as Henv.
  unfold bind in Hmenu.
  destruct (loop menu_body w2) as [[] w1|w1|e w1|]; try done.
  cbn [final] in Henv. unfold env in Henv.
  injection Henv as _ _ _ Hd. change (disk w2) with (disk w) in Hd.
  rewrite Hd, Hdisk in Hmenu. cbn in Hmenu.
  injection Hmenu as <-. reflexivity.
Qed.

(** X19. When a run of [main] on a writable disk has returned, the next
    run of the program, whatever its input, loads the file with success
    and starts its menu with the list of records that the first run ended
    with. *)
Theorem next_session_has_the_store w w' :
  main w = Ends (Ret tt w') ->
  disk w = Writable ->
  forall keys rnd r c d,
    main (initial keys rnd r c (file w') d) =
      Ends (menu (set_database (database w')
                    (initial keys rnd r c (file w') d))).
Proof.
  intros Hmain Hdisk keys rnd r c d.
  assert (file w' = Document (store_value (database w'))) as Hfile.
  { unfold main in Hmain.
    destruct (Persistence.read_database_file _ _) as [[ok v]|e|];
      [|done|done].
    destruct (as_records v) as [db|]; [|done].
    injection Hmain as Hmenu.
    by apply (menu_returns_saved (set_database db w)). }
  unfold main.
  change (file (initial keys rnd r c (file w') d)) with (file w').
  rewrite Hfile. unfold Persistence.read_database_file.
  by rewrite as_records_value.
Qed.

End Environment.

Section DigitsMore.

Context {U : Unicode}.

Local Arguments isdigit : simpl never.
Local Arguments int : simpl never.

Lemma int_digits_rejects acc s c :
  c ∈ s -> decimal_value c = None -> int_digits acc s = None.
Proof.
  intros Hin Hc. revert acc.
  induction s as [|c' s IH]; intros acc; [by apply elem_of_nil in Hin|].
  simpl. apply elem_of_cons in Hin as [<-|Hin]; [by rewrite Hc|].
  destruct (decimal_value c'); [by apply IH | done].
Qed.

(** X9. In [clear_desk], an answer that passes [isdigit] but holds a
    character without decimal value (a superscript digit, say) makes [int]
    raise [ValueError]; nothing catches it, so [clear_desk] ends with the
    exception right after the answer: no message, no new prompt, the store
    as before. *)
Theorem clear_desk_raises_on_other_digits w s c rest :
  database w <> [] ->
  pending w = s :: rest ->
  isdigit s = true ->
  c ∈ s -> decimal_value c = None ->
  clear_desk w =
    Raised ValueError
      (set_pending rest
         (show (prompt_ops Msg.enter_desk_number ++ after_input_ops) w)).
Proof.
  intros Hdb Hpending Hd Hin Hc.
  assert (int s = Throw ValueError) as Hi.
  { unfold int. destruct s; [done|]. by rewrite (int_digits_rejects 0 _ c). }
  rewrite clear_desk_nonempty by done.
  rewrite loop_unfold by apply clear_body_consumes.
  unfold bind at 1. unfold clear_body, bind, ret, lift.
  run_io. rewrite Hpending. simpl.
  rewrite bool_decide_false by (by apply isdigit_nonempty in Hd; destruct s).
  rewrite Hd, Hi. reflexivity.
Qed.

End DigitsMore.

Lemma clear_desk_raises_on_other_digits_witness :
  @clear_desk latin1 (sample_world bob5 [[49%N; 178%N]; str "k"] []) =
    Raised ValueError
      (set_pending [str "k"]
         (show (prompt_ops Msg.enter_desk_number ++ after_input_ops)
               (sample_world bob5 [[49%N; 178%N]; str "k"] []))).
Proof.
  apply (@clear_desk_raises_on_other_digits latin1
           (sample_world bob5 [[49%N; 178%N]; str "k"] [])
           [49%N; 178%N] 178%N [str "k"]).
  - discriminate.
  - reflexivity.
  - reflexivity.
  - apply (bool_decide_unpack _). vm_compute. exact I.
  - reflexivity.
Defined.



Example users_in_order :
  sorted (get_assigned_user_names three_desks)
  = [str "Al"; str "Bob"; str "Cy"].
Proof. reflexivity. Qed.

Lemma menu_dispatch_witness :
  @loop (@menu_body latin1) (sample_world bob5 [str "x"; str "0"] []) =
    loop (@menu_body latin1)
      (set_pending [str "0"]
         (show menu_ops (sample_world bob5 [str "x"; str "0"] []))).
Proof.
  assert (24 <= rows (sample_world bob5 [str "x"; str "0"] [])) as Hrows
    by (by vm_compute).
  assert (80 <= cols (sample_world bob5 [str "x"; str "0"] [])) as Hcols
    by (by vm_compute).
  pose proof (@menu_dispatch latin1 (sample_world bob5 [str "x"; str "0"] [])
                (str "x") [str "0"] Hrows Hcols eq_refl) as Hkey.
  cbv zeta in Hkey.
  rewrite !decide_False in Hkey by discriminate.
  exact Hkey.
Defined.


Lemma exit_saves_witness :
  file_of_exit_from (@menu latin1 (sample_world bob5 [str "0"] []))
  = Document (store_value bob5).
Proof.
  rewrite (@exit_saves latin1 (sample_world bob5 [str "0"] []) []).
  - reflexivity.
  - by vm_compute.
  - by vm_compute.
  - reflexivity.
Defined.

Lemma next_session_has_the_store_witness :
  exists w',
    @main latin1 (initial [str "1"; str "Alice"; str "k"; str "0"] [3%nat]
                    24 80 Missing Writable) = Ends (Ret tt w') /\
    @main latin1 (initial [str "0"] [] 24 80 (file w') Writable) =
      Ends (@menu latin1
              (set_database (database w')
                 (initial [str "0"] [] 24 80 (file w') Writable))).
Proof.
  eexists. split; [vm_compute; reflexivity|].
  apply (@next_session_has_the_store latin1
           (initial [str "1"; str "Alice"; str "k"; str "0"] [3%nat]
              24 80 Missing Writable)).
  - vm_compute. reflexivity.
  - reflexivity.
Defined.
